(** * OTP issuing and verification over Telegram: a model of [server.js]

    The development follows the server file by file and handler by handler:
    the two in-memory [Map]s, the [/start] handler of the bot, the
    [POST /api/verify-otp] and [GET /api/session/:sessionId] routes, the
    expiry sweeper installed with [setInterval], and the variant of the
    [/start] handler that retries a failed delivery.

    Conventions of the model.
    - A JavaScript [Map] keyed by chat id is an insertion-ordered association
      list with one entry per key ([JsMap]); its iteration order is the list
      order, as [Map.prototype.entries] specifies.
    - The session [Map], whose iteration order is never observed, is a
      [gmap string Session].
    - [Date.now()] readings are integers (milliseconds) handed to the
      handler; the base-36 renderings [Math.random().toString(36)] are
      handed to [generateSessionId] as strings.
    - A string stands for a JavaScript string through its UTF-8 bytes.
      [toLowerCase] is the engine's and is a parameter ([Engine]); concrete
      runs are on ASCII names, with the fold of [A]..[Z]. *)

From Stdlib Require Import ZArith Lia Ascii String List Bool DecimalString.
From Stdlib Require DecimalZ DecimalPos.
From stdpp Require Import gmap strings list fin_maps.

Local Open Scope string_scope.
Local Open Scope list_scope.
Local Open Scope Z_scope.

Import ListNotations.

(* ===================================================================== *)
(** ** Strings *)
(* ===================================================================== *)

Module Str.

(** [c] is one of the letters [A]..[Z] (code units 65..90). *)
Definition is_upper (c : ascii) : bool :=
  let n := nat_of_ascii c in (65 <=? n)%nat && (n <=? 90)%nat.

Definition lower_char (c : ascii) : ascii :=
  if is_upper c then ascii_of_nat (nat_of_ascii c + 32) else c.

(** The fold of the letters [A]..[Z] to [a]..[z], every other character
    kept. On a string of ASCII characters this is what
    [String.prototype.toLowerCase] returns. *)
Fixpoint asciiLower (s : string) : string :=
  match s with
  | EmptyString => EmptyString
  | String c rest => String (lower_char c) (asciiLower rest)
  end.

(** [s] holds ASCII characters only (code units below 128). *)
Fixpoint is_ascii (s : string) : bool :=
  match s with
  | EmptyString => true
  | String c rest => (nat_of_ascii c <? 128)%nat && is_ascii rest
  end.

(** [s.substring(start, stop)] for [0 <= start <= stop]: the characters
    at the indices [start .. min(stop, s.length) - 1]. *)
Definition substring (start stop : nat) (s : string) : string :=
  String.substring start (Nat.min stop (String.length s) - start) s.

(** Two characters are the same letter when they are equal or one is the
    capital of the other. *)
Definition same_letter (a b : ascii) : bool :=
  Ascii.eqb a b
  || (is_upper a && Ascii.eqb b (lower_char a))
  || (is_upper b && Ascii.eqb a (lower_char b)).

(** Equality of strings up to the case of their letters, character by
    character. *)
Fixpoint eq_upto_case (s t : string) : bool :=
  match s, t with
  | EmptyString, EmptyString => true
  | String a s', String b t' => same_letter a b && eq_upto_case s' t'
  | _, _ => false
  end.

(** JavaScript truthiness of a string: only the empty string is falsy. *)
Definition truthy (s : string) : bool :=
  match s with EmptyString => false | String _ _ => true end.

End Str.

(** [String.prototype.toLowerCase] belongs to the JavaScript engine, not to
    the server, and folds the letters of every script: it is a parameter of
    the model. All that is taken of it is what it does to ASCII text, where
    it folds [A]..[Z] and nothing else. Whatever is proved below with an
    [Engine] at hand holds of the server on every engine. *)
Class Engine := {
  toLowerCase : string -> string;
  toLowerCase_ascii :
    forall s, Str.is_ascii s = true -> toLowerCase s = Str.asciiLower s
}.

(** The engine as far as ASCII text goes. The runs on concrete names below
    use it, and their names are ASCII. *)
#[global] Instance asciiEngine : Engine := {|
  toLowerCase := Str.asciiLower;
  toLowerCase_ascii := fun s _ => eq_refl
|}.

(* ===================================================================== *)
(** ** An insertion-ordered [Map] keyed by chat id *)
(* ===================================================================== *)

Module JsMap.
Section Ops.
Context {V : Type}.

(** [m.get(k)] *)
Fixpoint get (k : Z) (m : list (Z * V)) : option V :=
  match m with
  | [] => None
  | (k', v) :: rest => if k' =? k then Some v else get k rest
  end.

(** [m.set(k, v)]: an existing key keeps its position and takes the new
    value; a new key is appended at the end. *)
Fixpoint set (k : Z) (v : V) (m : list (Z * V)) : list (Z * V) :=
  match m with
  | [] => [(k, v)]
  | (k', v') :: rest =>
      if k' =? k then (k, v) :: rest else (k', v') :: set k v rest
  end.

(** [m.delete(k)]: the entry of [k] is removed, the others keep their
    order. *)
Fixpoint delete (k : Z) (m : list (Z * V)) : list (Z * V) :=
  match m with
  | [] => []
  | (k', v') :: rest =>
      if k' =? k then delete k rest else (k', v') :: delete k rest
  end.

Definition keys (m : list (Z * V)) : list Z := fst <$> m.

(** The representation invariant of a [Map]: one entry per key. *)
Definition wf (m : list (Z * V)) : Prop := NoDup (keys m).

End Ops.
End JsMap.

(* ===================================================================== *)
(** ** The two stores *)
(* ===================================================================== *)

(** [otpStorage]: chatId -> { otp, username, timestamp } *)
Record OtpRecord := mkOtp {
  otp : string;
  username : string;
  timestamp : Z
}.

(** [userSessions]: sessionId -> { chatId, username, verified, timestamp } *)
Record Session := mkSession {
  s_chatId : Z;
  s_username : string;
  s_verified : bool;
  s_timestamp : Z
}.

Record State := mkState {
  otpStorage : list (Z * OtpRecord);
  userSessions : gmap string Session
}.

(** The age threshold [10 * 60 * 1000] used by every expiry test. *)
Definition EXPIRY_MS : Z := 10 * 60 * 1000.

(** [(now - userData.timestamp) > 10 * 60 * 1000] *)
Definition isExpired (now : Z) (userData : OtpRecord) : bool :=
  now - timestamp userData >? EXPIRY_MS.

(* ===================================================================== *)
(** ** Code generator *)
(* ===================================================================== *)

(** [generateSessionId()]:
    [Math.random().toString(36).substring(2, 15) +
     Math.random().toString(36).substring(2, 15)].
    The arguments are the base-36 renderings of the two random numbers,
    that is the values of the two [Math.random().toString(36)]. *)
Definition fragment (rendering : string) : string :=
  Str.substring 2 15 rendering.

Definition generateSessionId (rendering1 rendering2 : string) : string :=
  (fragment rendering1 ++ fragment rendering2)%string.

(* ===================================================================== *)
(** ** [bot.onText(/\/start/)] of [server.js] *)
(* ===================================================================== *)

(** The fields of the incoming message the handler reads; an absent field
    is [None]. *)
Record Message := mkMessage {
  chat_id : Z;
  from_username : option string;
  from_first_name : option string
}.

(** [a || b] on values that are strings or absent. *)
Definition or_else (a : option string) (b : string) : string :=
  match a with
  | Some s => if Str.truthy s then s else b
  | None => b
  end.

(** [msg.from.username || msg.from.first_name || 'User'] *)
Definition displayName (msg : Message) : string :=
  or_else (from_username msg) (or_else (from_first_name msg) "User").

(** The store update of the handler:
    [otpStorage.set(chatId, { otp, username, timestamp: Date.now() })],
    where [code] is the value of [generateOTP()]. *)
Definition issueOtp (chatId : Z) (name code : string) (now : Z)
    (st : State) : State :=
  mkState (JsMap.set chatId (mkOtp code name now) (otpStorage st))
          (userSessions st).

Definition onStart (msg : Message) (code : string) (now : Z)
    (st : State) : State :=
  issueOtp (chat_id msg) (displayName msg) code now st.

(* ===================================================================== *)
(** ** [POST /api/verify-otp] *)
(* ===================================================================== *)

(** The request body [{ username, otp }]. Each field is a string or is
    missing ([None]); bodies that carry another JSON type there are outside
    the model. *)
Record VerifyBody := mkBody {
  b_username : option string;
  b_otp : option string
}.

Inductive Response :=
| Ok200 (sessionId : string) (name : string)
    (* { success: true, sessionId, username, message } *)
| Err400 (error : string).

Definition MSG_REQUIRED := "Username and OTP are required".
Definition MSG_EXPIRED := "OTP has expired".
Definition MSG_INVALID := "Invalid username or OTP".

(** The three failures of the verification engine. *)
Definition InvalidRequest := Err400 MSG_REQUIRED.
Definition Expired := Err400 MSG_EXPIRED.
Definition InvalidCredentials := Err400 MSG_INVALID.

(** [!x] for a body field. *)
Definition missing (x : option string) : bool :=
  match x with
  | Some s => negb (Str.truthy s)
  | None => true
  end.

(** The test of the scan loop:
    [userData.username.toLowerCase() === username.toLowerCase()
     && userData.otp === otp]. *)
Definition matches {eng : Engine} (name code : string) (userData : OtpRecord)
    : bool :=
  String.eqb (toLowerCase (username userData)) (toLowerCase name)
  && String.eqb (otp userData) code.

(** How the [for ... of otpStorage.entries()] loop is left. *)
Inductive Scan :=
| ScanExpired (chatId : Z)
    (* [otpStorage.delete(chatId); return res.status(400)...] *)
| ScanFound (chatId : Z) (userData : OtpRecord)
    (* [foundChatId = chatId; foundUserData = userData; break] *)
| ScanNone.
    (* the loop ran to its end, [foundChatId] is still [null] *)

Fixpoint scan {eng : Engine} (now : Z) (name code : string)
    (entries : list (Z * OtpRecord)) : Scan :=
  match entries with
  | [] => ScanNone
  | (chatId, userData) :: rest =>
      if matches name code userData then
        if isExpired now userData then ScanExpired chatId
        else ScanFound chatId userData
      else scan now name code rest
  end.

(** The readings the handler takes from its environment: [Date.now()] in
    the loop, [Date.now()] for the session record, and the two random
    renderings of [generateSessionId()]. *)
Record Env := mkEnv {
  now_check : Z;
  now_session : Z;
  rendering1 : string;
  rendering2 : string
}.

(** The handler: the response and the state it leaves. The confirmation
    sent to the chat after a success is not awaited and touches neither
    map; it is left out. *)
Definition verifyOtp {eng : Engine} (env : Env) (body : VerifyBody) (st : State)
    : Response * State :=
  match b_username body, b_otp body with
  | Some name, Some code =>
      if missing (b_username body) || missing (b_otp body) then
        (InvalidRequest, st)
      else
        match scan (now_check env) name code (otpStorage st) with
        | ScanExpired chatId =>
            (Expired,
             mkState (JsMap.delete chatId (otpStorage st)) (userSessions st))
        | ScanNone => (InvalidCredentials, st)
        | ScanFound foundChatId foundUserData =>
            (* [if (!foundChatId)]: the number 0 is falsy like [null] *)
            if foundChatId =? 0 then (InvalidCredentials, st)
            else
              let sessionId :=
                generateSessionId (rendering1 env) (rendering2 env) in
              let session :=
                mkSession foundChatId (username foundUserData) true
                          (now_session env) in
              (Ok200 sessionId (username foundUserData),
               mkState (JsMap.delete foundChatId (otpStorage st))
                       (<[sessionId := session]> (userSessions st)))
        end
  | _, _ => (InvalidRequest, st)
  end.

(* ===================================================================== *)
(** ** [GET /api/session/:sessionId] *)
(* ===================================================================== *)

Inductive SessionResponse :=
| SessionOk (name : string) (verified : bool) (created : Z)
    (* 200 { username, verified, timestamp } *)
| SessionNotFound.
    (* 404 { error: 'Session not found' } *)

Definition getSession (sessionId : string) (st : State) : SessionResponse :=
  match userSessions st !! sessionId with
  | None => SessionNotFound
  | Some session =>
      SessionOk (s_username session) (s_verified session)
                (s_timestamp session)
  end.

(* ===================================================================== *)
(** ** The expiry sweeper *)
(* ===================================================================== *)

(** The delay given to [setInterval]: [5 * 60 * 1000]. *)
Definition SWEEP_PERIOD_MS : Z := 5 * 60 * 1000.

(** The scheduled time of the [k]-th run of a callback installed at
    [start] with [setInterval(callback, SWEEP_PERIOD_MS)], [k = 1, 2, ...]. *)
Definition tickTime (start : Z) (k : nat) : Z :=
  start + Z.of_nat k * SWEEP_PERIOD_MS.

(** One pass of the loop body over the entry [(chatId, data)]:
    [if (now - data.timestamp > 10 * 60 * 1000) otpStorage.delete(chatId)]. *)
Definition sweepEntry (now : Z) (storage : list (Z * OtpRecord))
    (entry : Z * OtpRecord) : list (Z * OtpRecord) :=
  if isExpired now (snd entry) then JsMap.delete (fst entry) storage
  else storage.

(** The callback. The loop walks the entries of the live map; the only
    entry a pass deletes is the one it is visiting, so the entries still to
    visit are those of the map at the start. *)
Definition sweepStorage (now : Z) (storage : list (Z * OtpRecord))
    : list (Z * OtpRecord) :=
  fold_left (sweepEntry now) storage storage.

Definition sweep (now : Z) (st : State) : State :=
  mkState (sweepStorage now (otpStorage st)) (userSessions st).

(* ===================================================================== *)
(** ** The [/start] handler of the webhook variant, with its fallback *)
(* ===================================================================== *)

(** This variant wraps the handler body in [try]/[catch] and sends a
    second, plain message from the [catch] block. Which identifiers a
    template literal can read depends on the block it sits in, so the
    bindings of each block are kept as an explicit scope and [${x}] is a
    lookup in it. Calls of [bot.sendMessage] and of [console] are recorded
    in a trace. *)

Module Handler.

Inductive Value :=
| VStr (s : string)
| VNum (n : Z)
| VObj.   (* an object or a function *)

(** A scope chain, innermost binding first. *)
Definition Scope := list (string * Value).

Fixpoint lookup (x : string) (sc : Scope) : option Value :=
  match sc with
  | [] => None
  | (y, v) :: rest => if String.eqb y x then Some v else lookup x rest
  end.

Definition show (v : Value) : string :=
  match v with
  | VStr s => s
  | VNum n => DecimalString.NilZero.string_of_int (Z.to_int n)
  | VObj => "[object Object]"
  end.

Inductive Error :=
| ReferenceError (x : string)   (* [x is not defined] *)
| DeliveryError.                (* the promise of [sendMessage] rejects *)

(** A template literal: text and [${x}] holes. *)
Inductive Part :=
| Lit (s : string)
| Hole (x : string).

Fixpoint template (sc : Scope) (parts : list Part) : Error + string :=
  match parts with
  | [] => inr ""
  | Lit s :: rest =>
      match template sc rest with
      | inr t => inr (s ++ t)%string
      | inl e => inl e
      end
  | Hole x :: rest =>
      match lookup x sc with
      | None => inl (ReferenceError x)
      | Some v =>
          match template sc rest with
          | inr t => inr (show v ++ t)%string
          | inl e => inl e
          end
      end
  end.

Inductive Event :=
| Sent (chatId : Z) (text : string) (markdown : bool) (delivered : bool)
    (* one call of [bot.sendMessage] and whether it was delivered *)
| ConsoleLog
| ConsoleError (what : string).

(** What a run of the handler carries along: the OTP map, the trace so
    far, and the outcomes of the calls of [sendMessage] still to come
    (an exhausted list means delivered). *)
Record Run := mkRun {
  storage : list (Z * OtpRecord);
  trace : list Event;
  outcomes : list bool
}.

Definition M (A : Type) : Type := Run -> (Error + A) * Run.

Definition bind {A B} (m : M A) (f : A -> M B) : M B :=
  fun r =>
    match m r with
    | (inr a, r') => f a r'
    | (inl e, r') => (inl e, r')
    end.

(** [try { body } catch (e) { handler e }] *)
Definition try_catch {A} (body : M A) (handler : Error -> M A) : M A :=
  fun r =>
    match body r with
    | (inr a, r') => (inr a, r')
    | (inl e, r') => handler e r'
    end.

Definition lift {A} (x : Error + A) : M A := fun r => (x, r).

Definition emit (ev : Event) : M unit :=
  fun r => (inr tt, mkRun (storage r) (trace r ++ [ev]) (outcomes r)).

(** [await bot.sendMessage(chatId, text, options)] *)
Definition sendMessage (chatId : Z) (text : string) (markdown : bool)
    : M unit :=
  fun r =>
    let delivered := match outcomes r with [] => true | b :: _ => b end in
    let r' := mkRun (storage r)
                    (trace r ++ [Sent chatId text markdown delivered])
                    (tl (outcomes r)) in
    if delivered then (inr tt, r') else (inl DeliveryError, r').

(** [otpStorage.set(chatId, record)] *)
Definition storageSet (chatId : Z) (record : OtpRecord) : M unit :=
  fun r =>
    (inr tt,
     mkRun (JsMap.set chatId record (storage r)) (trace r) (outcomes r)).

Notation "'do' x <- m ; k" := (bind m (fun x => k))
  (at level 10, x name, m at level 100, k at level 200).

Definition nl : string := String (ascii_of_nat 10) EmptyString.

(** The bindings of the module body that enclose the handler. *)
Definition module_scope : Scope :=
  map (fun x => (x, VObj))
    ["express"; "cors"; "TelegramBot"; "app"; "port"; "BOT_TOKEN"; "bot";
     "WEBHOOK_URL"; "otpStorage"; "userSessions"; "generateOTP";
     "generateSessionId"].

(** [`🔐 OTP: *${otp}*\n⏰ Expires in 10 minutes\n🌐 Use on verification form`] *)
Definition otp_message : list Part :=
  [Lit "🔐 OTP: *"; Hole "otp"; Lit "*"; Lit nl;
   Lit "⏰ Expires in 10 minutes"; Lit nl;
   Lit "🌐 Use on verification form"].

(** [`Your OTP is: ${otp}\nExpires in 10 minutes.`] *)
Definition fallback_message : list Part :=
  [Lit "Your OTP is: "; Hole "otp"; Lit nl; Lit "Expires in 10 minutes."].

(** [msg.from.username || msg.from.first_name || `user_${chatId}`] *)
Definition displayName (msg : Message) : string :=
  or_else (from_username msg)
    (or_else (from_first_name msg)
       ("user_" ++ show (VNum (chat_id msg)))%string).

(** The handler. [code] is the value of [generateOTP()], [startTime] and
    [timestamp] are the readings of [Date.now()]. The constants [otp],
    [timestamp] and [message] are declared inside the [try] block; the
    [catch] block sees the bindings of the function body, its own
    parameter [error], and the module's. *)
Definition onStart (msg : Message) (code : string)
    (startTime timestamp : Z) : M unit :=
  let chatId := chat_id msg in
  let username := displayName msg in
  let function_scope : Scope :=
    [("chatId", VNum chatId); ("username", VStr username);
     ("startTime", VNum startTime); ("msg", VObj)] ++ module_scope in
  try_catch
    (let try_scope : Scope :=
       [("otp", VStr code); ("timestamp", VNum timestamp)]
         ++ function_scope in
     do _ <- storageSet chatId (mkOtp code username timestamp);
     do message <- lift (template try_scope otp_message);
     do _ <- sendMessage chatId message true;
     emit ConsoleLog)
    (fun error =>
       let catch_scope : Scope := ("error", VObj) :: function_scope in
       do _ <- emit (ConsoleError "❌ Error in /start handler:");
       try_catch
         (do text <- lift (template catch_scope fallback_message);
          sendMessage chatId text false)
         (fun fallbackError =>
            emit (ConsoleError "❌ Fallback message also failed:"))).

(** The calls of [bot.sendMessage] in a trace. *)
Definition sends (t : list Event) : list Event :=
  List.filter (fun ev => match ev with Sent _ _ _ _ => true | _ => false end) t.

End Handler.

(* ===================================================================== *)
(** ** Vocabulary of the statements *)
(* ===================================================================== *)

(** No entry of [entries] passes the test of the scan loop. *)
Definition noMatch {eng : Engine} (name code : string)
    (entries : list (Z * OtpRecord))
    : bool :=
  forallb (fun e => negb (matches name code (snd e))) entries.

(** The entry of [chatId] is the only one that can pass the test. *)
Definition onlyMatch {eng : Engine} (name code : string) (chatId : Z)
    (entries : list (Z * OtpRecord)) : bool :=
  forallb (fun e => (fst e =? chatId) || negb (matches name code (snd e)))
          entries.

(** How many entries pass the test of the scan loop. *)
Definition countMatches {eng : Engine} (name code : string)
    (entries : list (Z * OtpRecord)) : nat :=
  length (List.filter (fun e => matches name code (snd e)) entries).

(** No entry is keyed by the chat id 0. *)
Definition noZeroKey (entries : list (Z * OtpRecord)) : bool :=
  forallb (fun e => negb (fst e =? 0)) entries.

(** [n] calls of the verification route in a row, with the same body and
    the same readings. *)
Fixpoint attempts {eng : Engine} (env : Env) (body : VerifyBody) (n : nat)
    (st : State)
    : State :=
  match n with
  | O => st
  | S n' => attempts env body n' (snd (verifyOtp env body st))
  end.

(** The states the server can be in: it starts with both maps empty, and
    every handler and the sweeper take it from one state to the next. *)
Inductive reachable {eng : Engine} : State -> Prop :=
| reach_init : reachable (mkState [] ∅)
| reach_start st msg code now :
    reachable st -> reachable (onStart msg code now st)
| reach_verify st env body :
    reachable st -> reachable (snd (verifyOtp env body st))
| reach_sweep st now :
    reachable st -> reachable (sweep now st).

(* ===================================================================== *)
(** ** [POST /api/verify-otp] on bodies of any JSON type *)
(* ===================================================================== *)

(** A field of the parsed body. The handler reads three things of a field:
    whether it is truthy, whether it is strictly equal to a stored string,
    and its [toLowerCase] method. A value that is not a string (a number,
    a boolean, [null], an object, an array, or nothing at all) is never
    strictly equal to a string and has no [toLowerCase] to call, so all the
    handler sees of it is its truthiness. *)
Inductive Field :=
| FStr (s : string)
| FOther (truthy : bool).

Definition field_truthy (x : Field) : bool :=
  match x with
  | FStr s => Str.truthy s
  | FOther t => t
  end.

(** [userData.otp === otp] *)
Definition strict_eq (stored : string) (x : Field) : bool :=
  match x with
  | FStr s => String.eqb stored s
  | FOther _ => false
  end.

(** The scan loop on such fields; [None] stands for the [TypeError] that
    [username.toLowerCase()] raises on a value that is not a string. The
    left operand of [&&] is evaluated first, so the error comes with the
    first entry visited. *)
Fixpoint scanAny {eng : Engine} (now : Z) (u o : Field)
    (entries : list (Z * OtpRecord))
    : option Scan :=
  match entries with
  | [] => Some ScanNone
  | (chatId, userData) :: rest =>
      match u with
      | FOther _ => None
      | FStr name =>
          if String.eqb (toLowerCase (username userData))
                        (toLowerCase name)
             && strict_eq (otp userData) o
          then
            if isExpired now userData then Some (ScanExpired chatId)
            else Some (ScanFound chatId userData)
          else scanAny now u o rest
      end
  end.

Inductive Outcome :=
| Responded (resp : Response)
| Thrown.   (* a [TypeError] leaves the handler *)

Definition verifyOtpAny {eng : Engine} (env : Env) (u o : Field) (st : State)
    : Outcome * State :=
  if negb (field_truthy u) || negb (field_truthy o) then
    (Responded InvalidRequest, st)
  else
    match scanAny (now_check env) u o (otpStorage st) with
    | None => (Thrown, st)
    | Some (ScanExpired chatId) =>
        (Responded Expired,
         mkState (JsMap.delete chatId (otpStorage st)) (userSessions st))
    | Some ScanNone => (Responded InvalidCredentials, st)
    | Some (ScanFound foundChatId foundUserData) =>
        if foundChatId =? 0 then (Responded InvalidCredentials, st)
        else
          let sessionId :=
            generateSessionId (rendering1 env) (rendering2 env) in
          let session :=
            mkSession foundChatId (username foundUserData) true
                      (now_session env) in
          (Responded (Ok200 sessionId (username foundUserData)),
           mkState (JsMap.delete foundChatId (otpStorage st))
                   (<[sessionId := session]> (userSessions st)))
    end.

(** A field of [VerifyBody] as a [Field]. *)
Definition field_of (x : option string) : Field :=
  match x with
  | Some s => FStr s
  | None => FOther false
  end.

(* ===================================================================== *)
(** ** [GET /api/user/:chatId] *)
(* ===================================================================== *)

Inductive UserResponse :=
| UserOk (name : string) (hasOTP : bool) (issued : Z)
    (* 200 { username, hasOTP, timestamp } *)
| UserNotFound.
    (* 404 { error: 'User not found' } *)

(** [chatId] is the value of [parseInt(req.params.chatId)]: an integer, or
    [None] for [NaN], which is the key of no entry. *)
Definition getUser (chatId : option Z) (st : State) : UserResponse :=
  match chatId with
  | None => UserNotFound
  | Some k =>
      match JsMap.get k (otpStorage st) with
      | None => UserNotFound
      | Some userData =>
          UserOk (username userData) (Str.truthy (otp userData))
                 (timestamp userData)
      end
  end.

(* ===================================================================== *)
(** ** [GET /api/debug/otps] *)
(* ===================================================================== *)

Record DebugItem := mkItem {
  d_chatId : Z;
  d_username : string;
  d_otp : string;
  d_timestamp : Z;
  d_expired : bool
}.

(** The loop pushes one item per entry, in iteration order, and reads
    [Date.now()] anew for each; [clock i] is the reading taken for the
    entry at index [i]. *)
Fixpoint debugFrom (clock : nat -> Z) (i : nat)
    (entries : list (Z * OtpRecord)) : list DebugItem :=
  match entries with
  | [] => []
  | (chatId, data) :: rest =>
      mkItem chatId (username data) (otp data) (timestamp data)
             (isExpired (clock i) data)
        :: debugFrom clock (S i) rest
  end.

Definition debugOtps (clock : nat -> Z) (st : State) : list DebugItem :=
  debugFrom clock 0 (otpStorage st).

(** The item pushed for an entry when the reading is [now]. *)
Definition itemAt (now : Z) (entry : Z * OtpRecord) : DebugItem :=
  mkItem (fst entry) (username (snd entry)) (otp (snd entry))
         (timestamp (snd entry)) (isExpired now (snd entry)).

(* ===================================================================== *)
(** ** The direct-API variant: [POST /generate-otp] and its
       [POST /api/verify-otp] *)
(* ===================================================================== *)

(** This variant fills the map from an HTTP route and stores what the body
    carries without looking at it: the key is [parseInt(chatId)] and the
    [username] of the record is the [username] of the body, of whatever
    type. Its verification route has the text of the one of [server.js],
    but it runs over such records. *)

Module DirectApi.

(** The value of [parseInt(chatId)]: an integer or [NaN]. A [Map] finds
    [NaN] under [NaN]. *)
Inductive Key :=
| KNum (n : Z)
| KNaN.

Definition key_eqb (a b : Key) : bool :=
  match a, b with
  | KNum x, KNum y => x =? y
  | KNaN, KNaN => true
  | _, _ => false
  end.

(** [{ otp, username, timestamp }], [username] being a [Field]. *)
Record Stored := mkStored {
  r_otp : string;
  r_username : Field;
  r_timestamp : Z
}.

Record ApiState := mkApiState {
  storage : list (Key * Stored);
  sessions : gmap string Session
}.

(** [otpStorage.set(key, record)] *)
Fixpoint set (k : Key) (v : Stored) (m : list (Key * Stored))
    : list (Key * Stored) :=
  match m with
  | [] => [(k, v)]
  | (k', v') :: rest =>
      if key_eqb k' k then (k, v) :: rest else (k', v') :: set k v rest
  end.

(** [otpStorage.delete(key)] *)
Fixpoint delete (k : Key) (m : list (Key * Stored)) : list (Key * Stored) :=
  match m with
  | [] => []
  | (k', v') :: rest =>
      if key_eqb k' k then delete k rest else (k', v') :: delete k rest
  end.

Inductive GenResponse :=
| GenOk (otp : string)   (* { success: true, otp } *)
| GenFailed.             (* 500 { error: 'Failed to send OTP' } *)

(** [POST /generate-otp], for a body that is an object. [key] is the value
    of [parseInt(chatId)], [username] the field of the body, [code] the
    value of [generateOTP()], [timestamp] the reading of [Date.now()], and
    [delivered] tells whether the promise of [axios.post] on
    [/sendMessage] resolves. The record is set before the call; a call
    that fails is caught and answered with the 500. *)
Definition generateOtp (key : Key) (username : Field) (code : string)
    (timestamp : Z) (delivered : bool) (st : ApiState)
    : GenResponse * ApiState :=
  let st' := mkApiState (set key (mkStored code username timestamp) (storage st))
                        (sessions st) in
  if delivered then (GenOk code, st') else (GenFailed, st').

(** How the scan loop is left. *)
Inductive ApiScan :=
| ApiExpired (key : Key)
| ApiFound (key : Key) (name : string)
| ApiNone.

(** The scan loop. [None] stands for a [TypeError]: the test calls
    [userData.username.toLowerCase()] first, which throws on a record
    whose [username] is not a string, then [username.toLowerCase()], which
    throws on a body whose [username] is not a string. *)
Fixpoint scan {eng : Engine} (now : Z) (u o : Field)
    (entries : list (Key * Stored)) : option ApiScan :=
  match entries with
  | [] => Some ApiNone
  | (key, userData) :: rest =>
      match r_username userData with
      | FOther _ => None
      | FStr stored =>
          match u with
          | FOther _ => None
          | FStr name =>
              if String.eqb (toLowerCase stored) (toLowerCase name)
                 && strict_eq (r_otp userData) o
              then
                if now - r_timestamp userData >? EXPIRY_MS
                then Some (ApiExpired key)
                else Some (ApiFound key stored)
              else scan now u o rest
          end
      end
  end.

(** [POST /api/verify-otp]. [!foundChatId] holds of [null], of 0 and of
    [NaN]. *)
Definition verifyOtp {eng : Engine} (env : Env) (u o : Field) (st : ApiState)
    : Outcome * ApiState :=
  if negb (field_truthy u) || negb (field_truthy o) then
    (Responded InvalidRequest, st)
  else
    match scan (now_check env) u o (storage st) with
    | None => (Thrown, st)
    | Some (ApiExpired key) =>
        (Responded Expired, mkApiState (delete key (storage st)) (sessions st))
    | Some ApiNone => (Responded InvalidCredentials, st)
    | Some (ApiFound KNaN _) => (Responded InvalidCredentials, st)
    | Some (ApiFound (KNum foundChatId) name) =>
        if foundChatId =? 0 then (Responded InvalidCredentials, st)
        else
          let sessionId :=
            generateSessionId (rendering1 env) (rendering2 env) in
          (Responded (Ok200 sessionId name),
           mkApiState (delete (KNum foundChatId) (storage st))
             (<[sessionId := mkSession foundChatId name true (now_session env)]>
                (sessions st)))
    end.

(** The record neither stops the scan nor breaks it: its [username] is a
    string and it does not pass the test for [name] and [code]. *)
Definition passedOver {eng : Engine} (name code : string) (r : Stored)
    : bool :=
  match r_username r with
  | FStr stored =>
      negb (String.eqb (toLowerCase stored) (toLowerCase name)
            && String.eqb (r_otp r) code)
  | FOther _ => false
  end.

(** Every record of a key other than [k] is passed over. *)
Definition quiet {eng : Engine} (name code : string) (k : Key)
    (entries : list (Key * Stored)) : bool :=
  forallb (fun e => key_eqb (fst e) k || passedOver name code (snd e))
          entries.

End DirectApi.

(* ===================================================================== *)
(** * Properties *)
(* ===================================================================== *)

(** ** Facts about the ordered map *)

Module JsMapFacts.
Section Facts.
Context {V : Type}.
Implicit Types (m pre post : list (Z * V)) (k : Z) (v : V).

Lemma elem_of_delete k k' v m :
  (k', v) ∈ JsMap.delete k m ↔ (k', v) ∈ m ∧ k' ≠ k.
Proof.
  induction m as [|[k0 v0] m IH]; simpl.
  - split; [intros H; inversion H | intros [H _]; inversion H].
  - destruct (Z.eqb_spec k0 k) as [->|Hne].
    + rewrite IH, elem_of_cons. split.
      * intros [H Hk]; auto.
      * intros [[H|H] Hk]; [congruence | auto].
    + rewrite !elem_of_cons, IH. split.
      * intros [H|[H Hk]]; [|auto]. inversion H; subst; auto.
      * intros [[H|H] Hk]; auto.
Qed.

Lemma keys_delete k k' m :
  k' ∈ JsMap.keys (JsMap.delete k m) ↔ k' ∈ JsMap.keys m ∧ k' ≠ k.
Proof.
  unfold JsMap.keys. rewrite !list_elem_of_fmap. split.
  - intros [[k0 v0] [-> H]]. apply elem_of_delete in H as [H Hk].
    split; [exists (k0, v0); auto | exact Hk].
  - intros [[[k0 v0] [-> H]] Hk]. exists (k0, v0). split; [reflexivity|].
    apply elem_of_delete; auto.
Qed.

Lemma wf_delete k m : JsMap.wf m → JsMap.wf (JsMap.delete k m).
Proof.
  unfold JsMap.wf. induction m as [|[k0 v0] m IH]; simpl; [auto|].
  intros H. apply NoDup_cons in H as [Hk0 Hm].
  destruct (Z.eqb_spec k0 k); [auto|].
  simpl. apply NoDup_cons. split; [|auto].
  intros Hin. apply keys_delete in Hin as [Hin _]. auto.
Qed.

Lemma delete_not_key k m : k ∉ JsMap.keys m → JsMap.delete k m = m.
Proof.
  induction m as [|[k0 v0] m IH]; simpl; [auto|].
  intros H. apply not_elem_of_cons in H as [Hne H].
  destruct (Z.eqb_spec k0 k); [congruence|]. f_equal. auto.
Qed.

(** Deleting the key of an entry removes that entry and nothing else. *)
Lemma delete_middle k v pre post :
  JsMap.wf (pre ++ (k, v) :: post) →
  JsMap.delete k (pre ++ (k, v) :: post) = pre ++ post.
Proof.
  unfold JsMap.wf, JsMap.keys. rewrite fmap_app, fmap_cons. simpl.
  intros H. apply NoDup_app in H as (Hpre & Hdisj & Hpost).
  apply NoDup_cons in Hpost as [Hk Hpost].
  assert (Hkpre : k ∉ JsMap.keys pre).
  { intros Hin. apply (Hdisj k Hin). left. }
  clear Hdisj Hpre. induction pre as [|[k0 v0] pre IH]; simpl.
  - rewrite Z.eqb_refl. apply delete_not_key. exact Hk.
  - apply not_elem_of_cons in Hkpre as [Hne Hkpre].
    simpl in Hne. destruct (Z.eqb_spec k0 k); [congruence|].
    f_equal. apply IH. exact Hkpre.
Qed.

Lemma get_delete_eq k m : JsMap.get k (JsMap.delete k m) = None.
Proof.
  induction m as [|[k0 v0] m IH]; simpl; [auto|].
  destruct (Z.eqb_spec k0 k) as [->|Hne]; [auto|].
  simpl. destruct (Z.eqb_spec k0 k); [congruence | auto].
Qed.

Lemma get_delete_ne k k' m :
  k' ≠ k → JsMap.get k' (JsMap.delete k m) = JsMap.get k' m.
Proof.
  intros Hne. induction m as [|[k0 v0] m IH]; simpl; [auto|].
  destruct (Z.eqb_spec k0 k) as [->|Hk].
  - destruct (Z.eqb_spec k k'); [congruence | auto].
  - simpl. destruct (Z.eqb_spec k0 k'); auto.
Qed.

Lemma get_Some_elem k v m : JsMap.get k m = Some v → (k, v) ∈ m.
Proof.
  induction m as [|[k0 v0] m IH]; simpl; [discriminate|].
  destruct (Z.eqb_spec k0 k) as [->|Hk].
  - intros [= ->]. left.
  - intros H. right. auto.
Qed.

Lemma elem_get_Some k v m : JsMap.wf m → (k, v) ∈ m → JsMap.get k m = Some v.
Proof.
  unfold JsMap.wf. induction m as [|[k0 v0] m IH]; simpl.
  - intros _ H. inversion H.
  - intros Hnd H. apply NoDup_cons in Hnd as [Hk0 Hnd].
    apply elem_of_cons in H as [H|H].
    + inversion H; subst. rewrite Z.eqb_refl. reflexivity.
    + destruct (Z.eqb_spec k0 k) as [->|Hk]; [|auto].
      exfalso. apply Hk0. unfold JsMap.keys.
      apply list_elem_of_fmap. exists (k, v). auto.
Qed.

Lemma get_None_keys k m : JsMap.get k m = None ↔ k ∉ JsMap.keys m.
Proof.
  induction m as [|[k0 v0] m IH]; simpl.
  - split; [intros _ H; inversion H | auto].
  - rewrite not_elem_of_cons. simpl.
    destruct (Z.eqb_spec k0 k) as [->|Hk].
    + split; [discriminate | intros [H _]; congruence].
    + rewrite IH. split; [intros H; split; auto | intros [_ H]; auto].
Qed.

Lemma get_set_eq k v m : JsMap.get k (JsMap.set k v m) = Some v.
Proof.
  induction m as [|[k0 v0] m IH]; simpl.
  - rewrite Z.eqb_refl. reflexivity.
  - destruct (Z.eqb_spec k0 k) as [->|Hk]; simpl.
    + rewrite Z.eqb_refl. reflexivity.
    + destruct (Z.eqb_spec k0 k); [congruence | auto].
Qed.

Lemma get_set_ne k k' v m :
  k' ≠ k → JsMap.get k' (JsMap.set k v m) = JsMap.get k' m.
Proof.
  intros Hne. induction m as [|[k0 v0] m IH]; simpl.
  - destruct (Z.eqb_spec k k'); [congruence | auto].
  - destruct (Z.eqb_spec k0 k) as [->|Hk]; simpl.
    + destruct (Z.eqb_spec k k'); [congruence | auto].
    + destruct (Z.eqb_spec k0 k'); auto.
Qed.

Lemma keys_set k k' v m :
  k' ∈ JsMap.keys (JsMap.set k v m) ↔ k' = k ∨ k' ∈ JsMap.keys m.
Proof.
  unfold JsMap.keys. induction m as [|[k0 v0] m IH]; simpl.
  - rewrite elem_of_cons. tauto.
  - destruct (Z.eqb_spec k0 k) as [->|Hk]; simpl.
    + rewrite !elem_of_cons. tauto.
    + rewrite !elem_of_cons, IH. tauto.
Qed.

Lemma wf_set k v m : JsMap.wf m → JsMap.wf (JsMap.set k v m).
Proof.
  unfold JsMap.wf. induction m as [|[k0 v0] m IH]; simpl.
  - intros _. apply NoDup_singleton.
  - intros H. apply NoDup_cons in H as [Hk0 Hm].
    destruct (Z.eqb_spec k0 k) as [->|Hk]; simpl.
    + apply NoDup_cons. auto.
    + apply NoDup_cons. split; [|auto].
      intros Hin. apply keys_set in Hin as [Hin|Hin]; auto.
Qed.

(** The entries of [m.set(k, v)]: the new entry of [k], and the entries
    of the other keys. *)
Lemma elem_of_set k k' v v' m :
  JsMap.wf m →
  (k', v') ∈ JsMap.set k v m →
  (k' = k ∧ v' = v) ∨ (k' ≠ k ∧ (k', v') ∈ m).
Proof.
  unfold JsMap.wf. induction m as [|[k0 v0] m IH]; simpl.
  - intros _ H. apply elem_of_cons in H as [H|H]; inversion H; auto.
  - intros Hnd. apply NoDup_cons in Hnd as [Hk0 Hnd].
    destruct (Z.eqb_spec k0 k) as [->|Hk]; intros H;
      apply elem_of_cons in H as [H|H].
    + inversion H; auto.
    + right. split; [|right; exact H].
      intros ->. apply Hk0. apply list_elem_of_fmap.
      exists (k, v'). auto.
    + inversion H; subst. right. split; [exact Hk | left].
    + destruct (IH Hnd H) as [?|[? ?]]; [auto|].
      right. split; [auto | right; auto].
Qed.

End Facts.
End JsMapFacts.

(** ** Facts about strings *)

Module StrFacts.

Lemma lower_char_idem c : Str.lower_char (Str.lower_char c) = Str.lower_char c.
Proof. destruct c as [[] [] [] [] [] [] [] []]; reflexivity. Qed.

Lemma same_letter_lower a b :
  Str.same_letter a b = true → Str.lower_char a = Str.lower_char b.
Proof.
  unfold Str.same_letter. intros H.
  apply orb_true_iff in H as [H|H]; [apply orb_true_iff in H as [H|H]|].
  - apply Ascii.eqb_eq in H. congruence.
  - apply andb_true_iff in H as [_ H]. apply Ascii.eqb_eq in H.
    subst b. symmetry. apply lower_char_idem.
  - apply andb_true_iff in H as [_ H]. apply Ascii.eqb_eq in H.
    subst a. apply lower_char_idem.
Qed.

(** Strings equal up to case have the same lower-case form. *)
Lemma eq_upto_case_lower s t :
  Str.eq_upto_case s t = true → Str.asciiLower s = Str.asciiLower t.
Proof.
  revert t. induction s as [|a s IH]; intros [|b t]; simpl;
    try discriminate; [reflexivity|].
  intros H. apply andb_true_iff in H as [Hab Hst].
  f_equal; [apply same_letter_lower; exact Hab | apply IH; exact Hst].
Qed.

Lemma eq_upto_case_truthy s t :
  Str.eq_upto_case s t = true → Str.truthy s = Str.truthy t.
Proof. destruct s, t; simpl; congruence. Qed.

Lemma substring_length n m s :
  String.length (String.substring n m s)
  = Nat.min m (String.length s - n).
Proof.
  revert n m. induction s as [|c s IH]; intros [|n] [|m]; simpl;
    try reflexivity.
  - f_equal. rewrite (IH 0%nat m). f_equal. lia.
  - rewrite (IH n 0%nat). reflexivity.
  - apply (IH n (S m)).
Qed.

(** [s.substring(start, stop).length] *)
Lemma length_substring start stop s :
  String.length (Str.substring start stop s)
  = (Nat.min stop (String.length s) - start)%nat.
Proof. unfold Str.substring. rewrite substring_length. lia. Qed.

Lemma append_length s t :
  String.length (s ++ t)%string = (String.length s + String.length t)%nat.
Proof. induction s as [|c s IH]; simpl; [reflexivity | f_equal; exact IH]. Qed.

End StrFacts.

(** ** Facts about the scan loop *)

Section ScanFacts.
Context {eng : Engine}.
Variables (now : Z) (name code : string).
Implicit Types (entries pre post : list (Z * OtpRecord)).

Lemma noMatch_app pre post :
  noMatch name code (pre ++ post)
  = noMatch name code pre && noMatch name code post.
Proof. unfold noMatch. apply forallb_app. Qed.

Lemma noMatch_elem entries c r :
  noMatch name code entries = true → (c, r) ∈ entries →
  matches name code r = false.
Proof.
  unfold noMatch. rewrite forallb_forall. intros H Hin.
  apply list_elem_of_In in Hin. apply H in Hin. simpl in Hin.
  destruct (matches name code r); [discriminate | reflexivity].
Qed.

(** The loop runs to its end exactly when no entry passes the test. *)
Lemma scan_none entries :
  scan now name code entries = ScanNone ↔ noMatch name code entries = true.
Proof.
  induction entries as [|[c r] entries IH]; simpl; [tauto|].
  destruct (matches name code r); simpl.
  - destruct (isExpired now r); split; discriminate.
  - exact IH.
Qed.

(** The loop is decided by the first entry that passes the test. *)
Lemma scan_first pre c r post :
  noMatch name code pre = true → matches name code r = true →
  scan now name code (pre ++ (c, r) :: post)
  = if isExpired now r then ScanExpired c else ScanFound c r.
Proof.
  intros Hpre Hr. induction pre as [|[c0 r0] pre IH]; simpl.
  - rewrite Hr. reflexivity.
  - simpl in Hpre. apply andb_true_iff in Hpre as [H0 Hpre].
    apply negb_true_iff in H0. rewrite H0. apply IH. exact Hpre.
Qed.

Lemma scan_expired_inv entries c :
  scan now name code entries = ScanExpired c →
  ∃ pre r post,
    entries = pre ++ (c, r) :: post ∧ noMatch name code pre = true ∧
    matches name code r = true ∧ isExpired now r = true.
Proof.
  induction entries as [|[c0 r0] entries IH]; simpl; [discriminate|].
  destruct (matches name code r0) eqn:Hm.
  - destruct (isExpired now r0) eqn:He; [|discriminate].
    intros [= ->]. exists [], r0, entries. auto.
  - intros H. destruct (IH H) as (pre & r & post & -> & Hpre & Hr & He).
    exists ((c0, r0) :: pre), r, post. simpl. rewrite Hm. auto.
Qed.

Lemma scan_found_inv entries c r :
  scan now name code entries = ScanFound c r →
  ∃ pre post,
    entries = pre ++ (c, r) :: post ∧ noMatch name code pre = true ∧
    matches name code r = true ∧ isExpired now r = false.
Proof.
  induction entries as [|[c0 r0] entries IH]; simpl; [discriminate|].
  destruct (matches name code r0) eqn:Hm.
  - destruct (isExpired now r0) eqn:He; [discriminate|].
    intros [= -> ->]. exists [], entries. auto.
  - intros H. destruct (IH H) as (pre & post & -> & Hpre & Hr & He).
    exists ((c0, r0) :: pre), post. simpl. rewrite Hm. auto.
Qed.

End ScanFacts.

(** When the entry of [c] is the only one that can match and it is gone,
    nothing matches. *)
Lemma onlyMatch_delete {eng : Engine} name code c entries :
  onlyMatch name code c entries = true →
  noMatch name code (JsMap.delete c entries) = true.
Proof.
  induction entries as [|[c0 r0] entries IH]; simpl; [auto|].
  intros H. apply andb_true_iff in H as [H0 H].
  destruct (Z.eqb_spec c0 c) as [->|Hne]; [auto|].
  simpl in *. rewrite H0. auto.
Qed.

(** ** The verification route, case by case *)

Section VerifyFacts.
Context {eng : Engine}.
Variables (env : Env) (name code : string) (st : State).
Hypothesis Hname : Str.truthy name = true.
Hypothesis Hcode : Str.truthy code = true.

Local Abbreviation body := (mkBody (Some name) (Some code)).

Lemma verify_scan :
  verifyOtp env body st =
  match scan (now_check env) name code (otpStorage st) with
  | ScanExpired chatId =>
      (Expired,
       mkState (JsMap.delete chatId (otpStorage st)) (userSessions st))
  | ScanNone => (InvalidCredentials, st)
  | ScanFound foundChatId foundUserData =>
      if foundChatId =? 0 then (InvalidCredentials, st)
      else
        let sessionId :=
          generateSessionId (rendering1 env) (rendering2 env) in
        (Ok200 sessionId (username foundUserData),
         mkState (JsMap.delete foundChatId (otpStorage st))
                 (<[sessionId := mkSession foundChatId
                                   (username foundUserData) true
                                   (now_session env)]> (userSessions st)))
  end.
Proof. unfold verifyOtp. simpl. rewrite Hname, Hcode. reflexivity. Qed.

Lemma verify_no_match :
  noMatch name code (otpStorage st) = true →
  verifyOtp env body st = (InvalidCredentials, st).
Proof.
  intros H. rewrite verify_scan.
  apply (scan_none (now_check env)) in H. rewrite H. reflexivity.
Qed.

Lemma verify_first_expired pre c r post :
  JsMap.wf (otpStorage st) →
  otpStorage st = pre ++ (c, r) :: post →
  noMatch name code pre = true → matches name code r = true →
  isExpired (now_check env) r = true →
  verifyOtp env body st = (Expired, mkState (pre ++ post) (userSessions st)).
Proof.
  intros Hwf Hst Hpre Hr He. rewrite verify_scan, Hst.
  rewrite (scan_first _ _ _ _ _ _ _ Hpre Hr), He.
  rewrite <- Hst at 1. rewrite Hst in Hwf |- *.
  rewrite (JsMapFacts.delete_middle _ _ _ _ Hwf). reflexivity.
Qed.

Lemma verify_first_live pre c r post :
  JsMap.wf (otpStorage st) →
  otpStorage st = pre ++ (c, r) :: post →
  noMatch name code pre = true → matches name code r = true →
  isExpired (now_check env) r = false → c ≠ 0 →
  verifyOtp env body st =
  (Ok200 (generateSessionId (rendering1 env) (rendering2 env)) (username r),
   mkState (pre ++ post)
     (<[generateSessionId (rendering1 env) (rendering2 env) :=
          mkSession c (username r) true (now_session env)]>
        (userSessions st))).
Proof.
  intros Hwf Hst Hpre Hr He Hc. rewrite verify_scan, Hst.
  rewrite (scan_first _ _ _ _ _ _ _ Hpre Hr), He.
  destruct (Z.eqb_spec c 0) as [->|_]; [congruence|].
  rewrite Hst in Hwf.
  cbv zeta. rewrite (JsMapFacts.delete_middle _ _ _ _ Hwf). reflexivity.
Qed.

End VerifyFacts.

(** A request with an empty field is answered before the scan. *)
Lemma verify_not_request_error {eng : Engine} env name code st :
  fst (verifyOtp env (mkBody (Some name) (Some code)) st) ≠ InvalidRequest →
  Str.truthy name = true ∧ Str.truthy code = true.
Proof.
  unfold verifyOtp. simpl.
  destruct (Str.truthy name), (Str.truthy code); simpl; intros H;
    try (exfalso; apply H; reflexivity). auto.
Qed.

Lemma onlyMatch_elem {eng : Engine} name code c entries c' r' :
  onlyMatch name code c entries = true → (c', r') ∈ entries →
  matches name code r' = true → c' = c.
Proof.
  unfold onlyMatch. rewrite forallb_forall. intros H Hin Hm.
  apply list_elem_of_In in Hin. apply H in Hin. simpl in Hin.
  rewrite Hm in Hin. simpl in Hin. rewrite orb_false_r in Hin.
  apply Z.eqb_eq. exact Hin.
Qed.

(** The test [!foundChatId] also holds of a record that was found under
    the chat id 0: such a record, though it matches and is not expired, is
    answered with [InvalidCredentials] and stays in the map. The statements
    below that promise a success are about non-zero chat ids. *)
Example zero_chat_id_reads_as_not_found :
  let st := mkState [(0, mkOtp "123456" "alice" 0)] ∅ in
  let env := mkEnv 1000 1000 "0.4fzyo82mvyr" "0.k3j2h1g0f9e" in
  verifyOtp env (mkBody (Some "alice") (Some "123456")) st
  = (InvalidCredentials, st).
Proof. reflexivity. Qed.

(** Closing a representation-invariant goal on a concrete map. *)
Ltac wf_concrete :=
  apply (bool_decide_unpack _); vm_compute; exact I.

(* ===================================================================== *)
(** ** Single use *)
(* ===================================================================== *)

(** C1 (as amended). Let recipient [c] hold the record [r], let the
    submitted pair match [r] and no record of another recipient, and let
    the call succeed with a session id that is new to the session map.
    Then the call deletes the record of [c], inserts one session record,
    with [verified = true], under that id and changes no other session, so
    the session map grows by one; and the same pair submitted again, at any
    time, fails with [InvalidCredentials] and changes nothing. *)
Theorem verify_single_use {eng : Engine} env env' name code st c r sid uname st' :
  JsMap.wf (otpStorage st) →
  JsMap.get c (otpStorage st) = Some r →
  matches name code r = true →
  onlyMatch name code c (otpStorage st) = true →
  userSessions st !! sid = None →
  verifyOtp env (mkBody (Some name) (Some code)) st = (Ok200 sid uname, st') →
  JsMap.get c (otpStorage st') = None ∧
  otpStorage st' = JsMap.delete c (otpStorage st) ∧
  userSessions st' =
    <[sid := mkSession c (username r) true (now_session env)]>
      (userSessions st) ∧
  size (userSessions st') = S (size (userSessions st)) ∧
  verifyOtp env' (mkBody (Some name) (Some code)) st' = (InvalidCredentials, st').
Proof.
  intros Hwf Hget Hm Honly Hfresh Hok.
  destruct (verify_not_request_error env name code st) as [Hn Hc].
  { rewrite Hok. discriminate. }
  rewrite (verify_scan env name code st Hn Hc) in Hok.
  destruct (scan (now_check env) name code (otpStorage st))
    as [c0|c0 r0|] eqn:Hscan; try discriminate.
  destruct (c0 =? 0); [discriminate|].
  apply scan_found_inv in Hscan as (pre & post & Hst & Hpre & Hr0 & He).
  assert (Hin : (c0, r0) ∈ otpStorage st).
  { rewrite Hst. apply elem_of_app. right. left. }
  assert (c0 = c) as -> by (eapply onlyMatch_elem; eauto).
  assert (r0 = r) as ->.
  { apply (JsMapFacts.elem_get_Some _ _ _ Hwf) in Hin. congruence. }
  cbv zeta in Hok. injection Hok as <- <- <-. simpl.
  repeat split.
  - apply JsMapFacts.get_delete_eq.
  - apply map_size_insert_None. exact Hfresh.
  - apply verify_no_match; [exact Hn | exact Hc |]. simpl.
    apply onlyMatch_delete. exact Honly.
Qed.

(** One recipient, one record, submitted twice. *)
Lemma verify_single_use_witness :
  let st := mkState [(42, mkOtp "123456" "alice" 0)] ∅ in
  let env := mkEnv 1000 1000 "0.4fzyo82mvyr" "0.k3j2h1g0f9e" in
  let body := mkBody (Some "ALICE") (Some "123456") in
  verifyOtp env body (snd (verifyOtp env body st))
  = (InvalidCredentials, snd (verifyOtp env body st)).
Proof.
  intros st env body.
  refine (proj2 (proj2 (proj2 (proj2
    (verify_single_use env env "ALICE" "123456" st 42
       (mkOtp "123456" "alice" 0) "4fzyo82mvyrk3j2h1g0f9e" "alice"
       (snd (verifyOtp env body st)) _ _ _ _ _ _))))).
  - wf_concrete.
  - reflexivity.
  - reflexivity.
  - reflexivity.
  - reflexivity.
  - reflexivity.
Defined.

(** C1 as stated fails when a second recipient's record matches the same
    pair: the senders of chats 1 and 2 have no handle and the same first
    name, so both show as [alice], and both were issued [123456]. The
    first call succeeds and deletes the record of chat 1; the repeated call
    succeeds again, on the record of chat 2. *)
Lemma replay_meets_second_match :
  let st := onStart (mkMessage 2 None (Some "alice")) "123456" 0
              (onStart (mkMessage 1 None (Some "alice")) "123456" 0
                 (mkState [] ∅)) in
  let env := mkEnv 1000 1000 "0.4fzyo82mvyr" "0.k3j2h1g0f9e" in
  let env' := mkEnv 1001 1001 "0.9x8w7v6u5t4" "0.a1b2c3d4e5f" in
  let body := mkBody (Some "alice") (Some "123456") in
  let st1 := snd (verifyOtp env body st) in
  fst (verifyOtp env body st) = Ok200 "4fzyo82mvyrk3j2h1g0f9e" "alice" ∧
  JsMap.get 1 (otpStorage st1) = None ∧
  fst (verifyOtp env' body st1) = Ok200 "9x8w7v6u5t4a1b2c3d4e5f" "alice" ∧
  fst (verifyOtp env' body st1) ≠ InvalidCredentials.
Proof. repeat split. discriminate. Qed.

(* ===================================================================== *)
(** ** Expiry *)
(* ===================================================================== *)

(** C2 (as amended). For the first record, in iteration order, that
    matches the submitted pair: verification fails with [Expired] and
    deletes that record exactly when [now - issuedAt > 10 minutes]. When it
    does, only that record is removed and no session is created, and a
    later attempt with the same pair fails with [InvalidCredentials]
    provided no other record matches the pair. When the record is not
    expired and its chat id is not zero, verification succeeds on it. *)
Theorem expiry_at_first_match {eng : Engine} env name code st pre c r post :
  JsMap.wf (otpStorage st) →
  Str.truthy name = true → Str.truthy code = true →
  otpStorage st = pre ++ (c, r) :: post →
  noMatch name code pre = true →
  matches name code r = true →
  let body := mkBody (Some name) (Some code) in
  let out := verifyOtp env body st in
  ((fst out = Expired ∧ JsMap.get c (otpStorage (snd out)) = None)
     ↔ now_check env - timestamp r > EXPIRY_MS) ∧
  (now_check env - timestamp r > EXPIRY_MS →
     out = (Expired, mkState (pre ++ post) (userSessions st)) ∧
     ∀ env', noMatch name code post = true →
             verifyOtp env' body (snd out) = (InvalidCredentials, snd out)) ∧
  (now_check env - timestamp r <= EXPIRY_MS → c ≠ 0 →
     let sid := generateSessionId (rendering1 env) (rendering2 env) in
     out = (Ok200 sid (username r),
            mkState (pre ++ post)
              (<[sid := mkSession c (username r) true (now_session env)]>
                 (userSessions st)))).
Proof.
  intros Hwf Hn Hc Hst Hpre Hr body out.
  assert (Hexp : isExpired (now_check env) r = true
                 ↔ now_check env - timestamp r > EXPIRY_MS).
  { unfold isExpired. rewrite Z.gtb_ltb, Z.ltb_lt. lia. }
  destruct (isExpired (now_check env) r) eqn:He.
  - assert (Hout : out = (Expired, mkState (pre ++ post) (userSessions st))).
    { eapply verify_first_expired; eauto. }
    assert (Hgt : now_check env - timestamp r > EXPIRY_MS) by (apply Hexp; auto).
    split; [|split].
    + split; [auto|]. intros _. rewrite Hout. simpl. split; [reflexivity|].
      rewrite Hst in Hwf.
      rewrite <- (JsMapFacts.delete_middle c r pre post Hwf).
      apply JsMapFacts.get_delete_eq.
    + intros _. split; [exact Hout|]. intros env' Hpost. rewrite Hout.
      apply verify_no_match; auto. simpl.
      rewrite noMatch_app, Hpre, Hpost. reflexivity.
    + intros Hle. lia.
  - assert (Hle : ¬ now_check env - timestamp r > EXPIRY_MS).
    { intros H. apply Hexp in H. discriminate. }
    split; [|split].
    + split; [|tauto]. intros [Hout _]. exfalso. revert Hout.
      unfold out, body. rewrite (verify_scan env name code st Hn Hc), Hst.
      rewrite (scan_first _ _ _ _ _ _ _ Hpre Hr), He.
      destruct (c =? 0); simpl; discriminate.
    + tauto.
    + intros _ Hc0. eapply verify_first_live; eauto.
Qed.

(** A record issued 601 s ago is answered with [Expired] and is gone; the
    same code submitted again is answered with [InvalidCredentials]. *)
Lemma expiry_at_first_match_witness :
  let st := mkState [(42, mkOtp "123456" "alice" 0)] ∅ in
  let env := mkEnv 601000 601000 "0.4fzyo82mvyr" "0.k3j2h1g0f9e" in
  let body := mkBody (Some "alice") (Some "123456") in
  verifyOtp env body st = (Expired, mkState [] ∅) ∧
  verifyOtp env body (mkState [] ∅) = (InvalidCredentials, mkState [] ∅).
Proof.
  intros st env body.
  destruct (expiry_at_first_match env "alice" "123456" st []
              42 (mkOtp "123456" "alice" 0) [])
    as (_ & Hexpired & _).
  - wf_concrete.
  - reflexivity.
  - reflexivity.
  - reflexivity.
  - reflexivity.
  - reflexivity.
  - destruct Hexpired as [H1 H2]; [reflexivity|].
    split; [exact H1|]. exact (H2 env eq_refl).
Defined.

(** A record issued 599 s ago verifies. *)
Example live_at_599_seconds :
  let st := mkState [(42, mkOtp "123456" "alice" 2000)] ∅ in
  let env := mkEnv 601000 601000 "0.4fzyo82mvyr" "0.k3j2h1g0f9e" in
  fst (verifyOtp env (mkBody (Some "alice") (Some "123456")) st)
  = Ok200 "4fzyo82mvyrk3j2h1g0f9e" "alice".
Proof. reflexivity. Qed.

(** The threshold itself is not expired: at exactly 600 s the code still
    verifies. *)
Example live_at_600_seconds :
  let st := mkState [(42, mkOtp "123456" "alice" 1000)] ∅ in
  let env := mkEnv 601000 601000 "0.4fzyo82mvyr" "0.k3j2h1g0f9e" in
  fst (verifyOtp env (mkBody (Some "alice") (Some "123456")) st)
  = Ok200 "4fzyo82mvyrk3j2h1g0f9e" "alice".
Proof. reflexivity. Qed.

(** C2 as stated fails for a matching record that is not the first match.
    The senders of chats 1 and 2 show as [alice] and both were issued
    [123456]; the record of chat 1, earlier in the map, is expired.
    (1) When the record of chat 2 was issued 599 s ago, verification fails
    with [Expired] instead of succeeding, and the second attempt with the
    same code then succeeds instead of failing with [InvalidCredentials].
    (2) When the record of chat 2 is expired too, verification fails with
    [Expired] but the record of chat 2 is not deleted. *)
Lemma live_record_behind_expired_match :
  let env := mkEnv 601000 601000 "0.4fzyo82mvyr" "0.k3j2h1g0f9e" in
  let body := mkBody (Some "alice") (Some "123456") in
  let st1 := onStart (mkMessage 1 None (Some "alice")) "123456" 0
               (mkState [] ∅) in
  let live := mkOtp "123456" "alice" 2000 in
  let st := onStart (mkMessage 2 None (Some "alice")) "123456" 2000 st1 in
  let stale := mkOtp "123456" "alice" 500 in
  let st_stale := onStart (mkMessage 2 None (Some "alice")) "123456" 500 st1 in
  (JsMap.get 2 (otpStorage st) = Some live ∧
   matches "alice" "123456" live = true ∧
   now_check env - timestamp live = 599 * 1000 ∧
   fst (verifyOtp env body st) = Expired ∧
   fst (verifyOtp env body (snd (verifyOtp env body st)))
   = Ok200 "4fzyo82mvyrk3j2h1g0f9e" "alice") ∧
  (JsMap.get 2 (otpStorage st_stale) = Some stale ∧
   matches "alice" "123456" stale = true ∧
   now_check env - timestamp stale > EXPIRY_MS ∧
   fst (verifyOtp env body st_stale) = Expired ∧
   JsMap.get 2 (otpStorage (snd (verifyOtp env body st_stale))) = Some stale).
Proof. repeat split. Qed.

(* ===================================================================== *)
(** ** One record per recipient *)
(* ===================================================================== *)

Lemma sweep_fold_wf now todo acc :
  JsMap.wf acc → JsMap.wf (fold_left (sweepEntry now) todo acc).
Proof.
  revert acc. induction todo as [|e todo IH]; intros acc Hwf; simpl; [auto|].
  apply IH. unfold sweepEntry. destruct (isExpired now (snd e)); [|auto].
  apply JsMapFacts.wf_delete. exact Hwf.
Qed.

Lemma verify_wf {eng : Engine} env body st :
  JsMap.wf (otpStorage st) → JsMap.wf (otpStorage (snd (verifyOtp env body st))).
Proof.
  intros Hwf. unfold verifyOtp.
  destruct (b_username body) as [name|]; [|exact Hwf].
  destruct (b_otp body) as [code|]; [|exact Hwf].
  destruct (_ || _); [exact Hwf|].
  destruct (scan _ _ _ _) as [c|c r|]; [| |exact Hwf].
  - apply JsMapFacts.wf_delete. exact Hwf.
  - destruct (c =? 0); [exact Hwf|]. apply JsMapFacts.wf_delete. exact Hwf.
Qed.

(** Every state of the server keeps one entry per chat id. *)
Lemma reachable_wf {eng : Engine} st : reachable st → JsMap.wf (otpStorage st).
Proof.
  induction 1 as [|st msg code now _ IH|st env body _ IH|st now _ IH]; simpl.
  - apply NoDup_nil_2.
  - apply JsMapFacts.wf_set. exact IH.
  - apply verify_wf. exact IH.
  - apply sweep_fold_wf. exact IH.
Qed.

Lemma wf_functional (m : list (Z * OtpRecord)) k r1 r2 :
  JsMap.wf m → (k, r1) ∈ m → (k, r2) ∈ m → r1 = r2.
Proof.
  intros Hwf H1 H2.
  apply (JsMapFacts.elem_get_Some _ _ _ Hwf) in H1, H2. congruence.
Qed.

Lemma noMatch_after_set {eng : Engine} name code c new entries :
  JsMap.wf entries →
  onlyMatch name code c entries = true →
  matches name code new = false →
  noMatch name code (JsMap.set c new entries) = true.
Proof.
  intros Hwf Honly Hnew. unfold noMatch. apply forallb_forall.
  intros [c' r'] Hin. apply list_elem_of_In in Hin. simpl.
  apply (JsMapFacts.elem_of_set _ _ _ _ _ Hwf) in Hin as [[-> ->]|[Hne Hin]].
  - rewrite Hnew. reflexivity.
  - destruct (matches name code r') eqn:Hm; [|reflexivity].
    exfalso. apply Hne. eapply onlyMatch_elem; eauto.
Qed.

(** C3 (as amended). In every state of the server the OTP map holds at
    most one record per recipient [R]. Issuing a new OTP for [R] replaces
    the record of [R], whatever it was, and touches no session. After it,
    a verification attempt that submits the old code, with any username,
    fails with [InvalidCredentials] and changes nothing, provided the new
    code differs from the old one and no other recipient's record matches
    that username with the old code. *)
Theorem issue_supersedes {eng : Engine} st R :
  reachable st →
  (∀ r1 r2, (R, r1) ∈ otpStorage st → (R, r2) ∈ otpStorage st → r1 = r2) ∧
  ∀ name newCode now,
    let st1 := issueOtp R name newCode now st in
    JsMap.get R (otpStorage st1) = Some (mkOtp newCode name now) ∧
    (∀ r, (R, r) ∈ otpStorage st1 → r = mkOtp newCode name now) ∧
    userSessions st1 = userSessions st ∧
    ∀ old env uname,
      JsMap.get R (otpStorage st) = Some old →
      Str.truthy uname = true → Str.truthy (otp old) = true →
      newCode ≠ otp old →
      onlyMatch uname (otp old) R (otpStorage st) = true →
      verifyOtp env (mkBody (Some uname) (Some (otp old))) st1
      = (InvalidCredentials, st1).
Proof.
  intros Hreach. pose proof (reachable_wf st Hreach) as Hwf.
  split; [intros r1 r2; apply wf_functional; exact Hwf|].
  intros name newCode now st1.
  assert (Hget : JsMap.get R (otpStorage st1) = Some (mkOtp newCode name now))
    by apply JsMapFacts.get_set_eq.
  repeat split; [exact Hget | |].
  - intros r Hin.
    apply (JsMapFacts.elem_get_Some _ _ _ (JsMapFacts.wf_set R _ _ Hwf)) in Hin.
    unfold st1 in Hget. simpl in Hget. congruence.
  - intros old env uname Hold Hu Hc Hne Honly.
    apply verify_no_match; [exact Hu | exact Hc |]. simpl.
    apply noMatch_after_set; [exact Hwf | exact Honly |].
    unfold matches. simpl.
    destruct (String.eqb_spec newCode (otp old)); [contradiction|].
    apply andb_false_r.
Qed.

(** Chat 42 asks for a code twice; the first code no longer verifies. *)
Lemma issue_supersedes_witness :
  let msg := mkMessage 42 (Some "alice") None in
  let st := onStart msg "111111" 0 (mkState [] ∅) in
  let st1 := issueOtp 42 "alice" "222222" 1000 st in
  verifyOtp (mkEnv 2000 2000 "0.4fzyo82mvyr" "0.k3j2h1g0f9e")
            (mkBody (Some "alice") (Some "111111")) st1
  = (InvalidCredentials, st1).
Proof.
  intros msg st st1.
  refine (proj2 (proj2 (proj2 (proj2
    (issue_supersedes st 42 (reach_start _ msg "111111" 0 reach_init))
      "alice" "222222" 1000))) (mkOtp "111111" "alice" 0) _ "alice" _ _ _ _ _).
  - reflexivity.
  - reflexivity.
  - reflexivity.
  - discriminate.
  - reflexivity.
Defined.

(** C3 as stated fails in two ways. (1) Chat 8 shows as [Bob] and holds the
    code [111111] that chat 7, [bob], held before asking again: the old
    code of chat 7 submitted for [bob] verifies, on the record of chat 8.
    (2) The generator returns the same code again: the old code, being the
    new one, verifies. *)
Lemma old_code_still_verifies :
  let env := mkEnv 2000 2000 "0.4fzyo82mvyr" "0.k3j2h1g0f9e" in
  let body := mkBody (Some "bob") (Some "111111") in
  let st' := onStart (mkMessage 7 (Some "bob") None) "111111" 0
               (mkState [] ∅) in
  let st := onStart (mkMessage 8 None (Some "Bob")) "111111" 0 st' in
  JsMap.get 7 (otpStorage (issueOtp 7 "bob" "222222" 1000 st))
  = Some (mkOtp "222222" "bob" 1000) ∧
  fst (verifyOtp env body (issueOtp 7 "bob" "222222" 1000 st))
  = Ok200 "4fzyo82mvyrk3j2h1g0f9e" "Bob" ∧
  fst (verifyOtp env body (issueOtp 7 "bob" "111111" 1000 st'))
  = Ok200 "4fzyo82mvyrk3j2h1g0f9e" "bob".
Proof. repeat split. Qed.

(* ===================================================================== *)
(** ** Matching of the username *)
(* ===================================================================== *)

Lemma matches_same_fold {eng : Engine} uname r :
  toLowerCase uname = toLowerCase (username r) →
  matches uname (otp r) r = true.
Proof.
  intros H. unfold matches. rewrite H, !String.eqb_refl. reflexivity.
Qed.

(** C4 (as amended). Let [r], with display name [D] and code [C], be a
    record that is not expired, whose chat id is not zero, and that no
    earlier record in iteration order hides by matching the submitted
    pair. A verify call with the code [C] and with any username equal to
    [D] up to letter case, that is, any username that [toLowerCase] takes
    to the same string as [D], succeeds (username and code being
    present); the username of the response is [D] as stored, and
    [GET /api/session/:sessionId] for the returned id answers with [D] as
    stored and [verified = true]. *)
Theorem verify_ignores_case {eng : Engine} env uname st pre c r post :
  JsMap.wf (otpStorage st) →
  otpStorage st = pre ++ (c, r) :: post →
  Str.truthy uname = true → Str.truthy (otp r) = true →
  isExpired (now_check env) r = false →
  c ≠ 0 →
  toLowerCase uname = toLowerCase (username r) →
  noMatch uname (otp r) pre = true →
  let out := verifyOtp env (mkBody (Some uname) (Some (otp r))) st in
  let sid := generateSessionId (rendering1 env) (rendering2 env) in
  fst out = Ok200 sid (username r) ∧
  getSession sid (snd out) = SessionOk (username r) true (now_session env) ∧
  JsMap.get c (otpStorage (snd out)) = None.
Proof.
  intros Hwf Hst Hu HC He Hc0 Hcase Hpre out sid.
  pose proof (matches_same_fold uname r Hcase) as Hm.
  unfold out.
  rewrite (verify_first_live env uname (otp r) st Hu HC pre c r post
             Hwf Hst Hpre Hm He Hc0).
  simpl. split; [reflexivity|]. split.
  - unfold getSession. simpl. fold sid. rewrite lookup_insert_eq. reflexivity.
  - rewrite Hst in Hwf.
    rewrite <- (JsMapFacts.delete_middle c r pre post Hwf).
    apply JsMapFacts.get_delete_eq.
Qed.

(** The scenario of the specification: a code issued to chat 42, [alice],
    at [t0] and submitted as [ALICE] one second later. *)
Lemma verify_ignores_case_witness :
  let t0 := 1700000000000 in
  let st := onStart (mkMessage 42 (Some "alice") None) "123456" t0
                    (mkState [] ∅) in
  let env := mkEnv (t0 + 1000) (t0 + 1000) "0.4fzyo82mvyr" "0.k3j2h1g0f9e" in
  let out := verifyOtp env (mkBody (Some "ALICE") (Some "123456")) st in
  fst out = Ok200 "4fzyo82mvyrk3j2h1g0f9e" "alice" ∧
  getSession "4fzyo82mvyrk3j2h1g0f9e" (snd out)
  = SessionOk "alice" true (t0 + 1000).
Proof.
  intros t0 st env out.
  destruct (verify_ignores_case env "ALICE" st []
              42 (mkOtp "123456" "alice" t0) [])
    as (H1 & H2 & _).
  - wf_concrete.
  - reflexivity.
  - reflexivity.
  - reflexivity.
  - reflexivity.
  - discriminate.
  - reflexivity.
  - reflexivity.
  - split; [exact H1 | exact H2].
Defined.

(** C4 as stated fails for a live record that an earlier match hides.
    Chat 2 holds a live record with display name [alice]; chat 1, earlier
    in the map, holds a record with the same code whose display name
    differs from it only by case. If the record of chat 1 is expired the
    call fails with [Expired]; if it is live the call succeeds on it and
    answers with the display name [Alice] of chat 1, not with [alice]. *)
Lemma earlier_match_hides_live_record :
  let r2 := mkOtp "123456" "alice" 600000 in
  let env := mkEnv 601000 601000 "0.4fzyo82mvyr" "0.k3j2h1g0f9e" in
  let body := mkBody (Some "ALICE") (Some "123456") in
  let st_expired :=
    onStart (mkMessage 2 (Some "alice") None) "123456" 600000
      (onStart (mkMessage 1 None (Some "Alice")) "123456" 0
         (mkState [] ∅)) in
  let st_live :=
    onStart (mkMessage 2 (Some "alice") None) "123456" 600000
      (onStart (mkMessage 1 None (Some "Alice")) "123456" 600000
         (mkState [] ∅)) in
  isExpired (now_check env) r2 = false ∧
  toLowerCase "ALICE" = toLowerCase (username r2) ∧
  fst (verifyOtp env body st_expired) = Expired ∧
  fst (verifyOtp env body st_live) = Ok200 "4fzyo82mvyrk3j2h1g0f9e" "Alice" ∧
  JsMap.get 2 (otpStorage (snd (verifyOtp env body st_live))) = Some r2.
Proof. repeat split. Qed.

(* ===================================================================== *)
(** ** The period of the sweeper *)
(* ===================================================================== *)

(** C5 (as amended). The sweeper runs on a fixed 5-minute interval: the
    delay handed to [setInterval] is [5 * 60 * 1000] ms, so consecutive
    runs are 300000 ms apart. Ten minutes is the age threshold of the
    records, not the period of the sweeper. *)
Theorem sweeper_period start k :
  SWEEP_PERIOD_MS = 5 * 60 * 1000 ∧
  tickTime start (S k) - tickTime start k = 300000 ∧
  EXPIRY_MS = 2 * SWEEP_PERIOD_MS.
Proof.
  unfold tickTime, SWEEP_PERIOD_MS, EXPIRY_MS. repeat split. lia.
Qed.

(** C5 as stated fails: the period is not 10 minutes; the second run comes
    10 minutes after the sweeper is installed, not the first. *)
Lemma sweeper_period_is_not_ten_minutes :
  SWEEP_PERIOD_MS ≠ 10 * 60 * 1000 ∧
  tickTime 0 1 = 5 * 60 * 1000 ∧
  tickTime 0 2 = 10 * 60 * 1000.
Proof. repeat split. discriminate. Qed.

(* ===================================================================== *)
(** ** The session identifier *)
(* ===================================================================== *)

Lemma fragment_length rendering :
  String.length (fragment rendering)
  = (Nat.min 15 (String.length rendering) - 2)%nat.
Proof. apply StrFacts.length_substring. Qed.

(** C6 (as amended). [generateSessionId()] returns the concatenation of
    two fragments, one per call of the random source. Each fragment is the
    part of the base-36 rendering from index 2 up to index 15, so it has
    [min(15, length) - 2] characters: at most 13, and at least 10 exactly
    when the rendering has at least 12 characters. The identifier has at
    most 26 characters. *)
Theorem session_id_fragments rendering1 rendering2 :
  generateSessionId rendering1 rendering2
  = (Str.substring 2 15 rendering1 ++ Str.substring 2 15 rendering2)%string ∧
  (∀ r, String.length (fragment r) = (Nat.min 15 (String.length r) - 2)%nat ∧
        (String.length (fragment r) <= 13)%nat ∧
        ((10 <= String.length (fragment r))%nat
           ↔ (12 <= String.length r)%nat)) ∧
  (String.length (generateSessionId rendering1 rendering2) <= 26)%nat.
Proof.
  split; [reflexivity|]. split.
  - intros r. rewrite fragment_length. lia.
  - unfold generateSessionId.
    rewrite StrFacts.append_length, !fragment_length. lia.
Qed.

(** C6 as stated fails when the random source returns a number with a
    short base-36 rendering. [Math.random()] may return 0.5, whose
    rendering is [0.i] (0.5 = 18/36, and the digit 18 is written [i]): the
    fragment is the single character [i]. It may return 0, whose rendering
    is [0]: the fragment is empty. *)
Lemma short_fragments :
  fragment "0.i" = "i" ∧
  fragment "0" = "" ∧
  generateSessionId "0.i" "0.4fzyo82mvyr" = "i4fzyo82mvyr" ∧
  ¬ (10 <= String.length (fragment "0.i"))%nat.
Proof. repeat split. simpl. lia. Qed.

(* ===================================================================== *)
(** ** The fallback of the [/start] handler *)
(* ===================================================================== *)

(** In the [catch] block the identifier [otp] is not bound: evaluating the
    fallback text raises a [ReferenceError]. *)
Lemma fallback_text_unbound msg startTime :
  let function_scope : Handler.Scope :=
    [("chatId", Handler.VNum (chat_id msg));
     ("username", Handler.VStr (Handler.displayName msg));
     ("startTime", Handler.VNum startTime); ("msg", Handler.VObj)]
      ++ Handler.module_scope in
  Handler.template (("error", Handler.VObj) :: function_scope)
                   Handler.fallback_message
  = inl (Handler.ReferenceError "otp").
Proof. reflexivity. Qed.

(** C7, on the code. When the first delivery fails, the handler makes no
    second call of [bot.sendMessage]: the fallback text reads [otp], which
    is declared inside the [try] block and is not in scope in the [catch]
    block, so building the text raises a [ReferenceError] before the call;
    the inner [catch] logs it as a failed fallback. The trace holds the one
    failed call, no further delivery outcome is consumed, the handler ends
    normally, and the stored record stays. *)
Theorem fallback_is_never_sent msg code startTime timestamp store rest :
  let run := Handler.onStart msg code startTime timestamp
               (Handler.mkRun store [] (false :: rest)) in
  let name := Handler.displayName msg in
  fst run = inr tt ∧
  Handler.trace (snd run) =
    [Handler.Sent (chat_id msg)
       ("🔐 OTP: *" ++ code ++ "*" ++ Handler.nl
          ++ "⏰ Expires in 10 minutes" ++ Handler.nl
          ++ "🌐 Use on verification form")%string
       true false;
     Handler.ConsoleError "❌ Error in /start handler:";
     Handler.ConsoleError "❌ Fallback message also failed:"] ∧
  length (Handler.sends (Handler.trace (snd run))) = 1%nat ∧
  Handler.outcomes (snd run) = rest ∧
  Handler.storage (snd run)
  = JsMap.set (chat_id msg) (mkOtp code name timestamp) store ∧
  JsMap.get (chat_id msg) (Handler.storage (snd run))
  = Some (mkOtp code name timestamp).
Proof.
  intros run name. repeat split. apply JsMapFacts.get_set_eq.
Qed.

(** When the first delivery succeeds there is one call and nothing is
    logged as an error. *)
Lemma delivered_at_once msg code startTime timestamp store rest :
  let run := Handler.onStart msg code startTime timestamp
               (Handler.mkRun store [] (true :: rest)) in
  fst run = inr tt ∧
  Handler.trace (snd run) =
    [Handler.Sent (chat_id msg)
       ("🔐 OTP: *" ++ code ++ "*" ++ Handler.nl
          ++ "⏰ Expires in 10 minutes" ++ Handler.nl
          ++ "🌐 Use on verification form")%string
       true true;
     Handler.ConsoleLog].
Proof. intros run. split; reflexivity. Qed.

(* ===================================================================== *)
(** ** The sweeper *)
(* ===================================================================== *)

Lemma wf_app_drop (pre post : list (Z * OtpRecord)) e :
  JsMap.wf (pre ++ e :: post) → JsMap.wf (pre ++ post).
Proof.
  unfold JsMap.wf, JsMap.keys. rewrite !fmap_app, fmap_cons.
  intros H. apply NoDup_app in H as (Hpre & Hdisj & Hpost).
  apply NoDup_cons in Hpost as [_ Hpost].
  apply NoDup_app. repeat split; [exact Hpre | | exact Hpost].
  intros k Hk Hin. apply (Hdisj k Hk). right. exact Hin.
Qed.

(** The loop, entry by entry: the entries already visited are kept when
    they are not expired, the others are still there. *)
Lemma sweep_fold now todo visited :
  JsMap.wf (visited ++ todo) →
  fold_left (sweepEntry now) todo (visited ++ todo)
  = visited ++ List.filter (fun e => negb (isExpired now (snd e))) todo.
Proof.
  revert visited. induction todo as [|[c r] todo IH]; intros visited Hwf.
  - reflexivity.
  - simpl. unfold sweepEntry at 2. simpl.
    destruct (isExpired now r) eqn:He; simpl.
    + rewrite (JsMapFacts.delete_middle c r visited todo Hwf).
      apply IH. eapply wf_app_drop. exact Hwf.
    + replace (visited ++ (c, r) :: todo) with ((visited ++ [(c, r)]) ++ todo)
        in * by (rewrite <- app_assoc; reflexivity).
      rewrite (IH _ Hwf). rewrite <- app_assoc. reflexivity.
Qed.

Lemma sweepStorage_filter now storage :
  JsMap.wf storage →
  sweepStorage now storage
  = List.filter (fun e => negb (isExpired now (snd e))) storage.
Proof. intros Hwf. apply (sweep_fold now storage [] Hwf). Qed.

Lemma isExpired_false now r :
  isExpired now r = false ↔ now - timestamp r <= EXPIRY_MS.
Proof. unfold isExpired. rewrite Z.gtb_ltb, Z.ltb_ge. reflexivity. Qed.

(** C8. A run of the sweeper at time [now] deletes exactly the OTP records
    older than 10 minutes: what is left is the map without them, in the
    same order; no record with [now - issuedAt > 10 minutes] is left; every
    record of age at most 10 minutes is still there, unchanged, under its
    chat id; every older record is gone; and the session map is the same. *)
Theorem sweep_deletes_exactly_expired now st :
  JsMap.wf (otpStorage st) →
  let st' := sweep now st in
  otpStorage st'
  = List.filter (fun e => negb (isExpired now (snd e))) (otpStorage st) ∧
  (∀ c r, (c, r) ∈ otpStorage st' → now - timestamp r <= EXPIRY_MS) ∧
  (∀ c r, (c, r) ∈ otpStorage st → now - timestamp r <= EXPIRY_MS →
          (c, r) ∈ otpStorage st' ∧ JsMap.get c (otpStorage st') = Some r) ∧
  (∀ c r, (c, r) ∈ otpStorage st → now - timestamp r > EXPIRY_MS →
          JsMap.get c (otpStorage st') = None) ∧
  userSessions st' = userSessions st.
Proof.
  intros Hwf st'.
  assert (Heq : otpStorage st'
     = List.filter (fun e => negb (isExpired now (snd e))) (otpStorage st))
    by (apply sweepStorage_filter; exact Hwf).
  assert (Hwf' : JsMap.wf (otpStorage st')) by (apply sweep_fold_wf; exact Hwf).
  assert (Hin : ∀ c r, (c, r) ∈ otpStorage st' ↔
                       (c, r) ∈ otpStorage st ∧ isExpired now r = false).
  { intros c r. rewrite Heq, !list_elem_of_In, filter_In. simpl.
    rewrite negb_true_iff. reflexivity. }
  split; [exact Heq|]. split; [|split; [|split; [|reflexivity]]].
  - intros c r H. apply Hin in H as [_ H]. apply isExpired_false. exact H.
  - intros c r H Hage.
    assert (H' : (c, r) ∈ otpStorage st').
    { apply Hin. split; [exact H | apply isExpired_false; exact Hage]. }
    split; [exact H' | apply JsMapFacts.elem_get_Some; assumption].
  - intros c r H Hage.
    destruct (JsMap.get c (otpStorage st')) as [r'|] eqn:Hget; [|reflexivity].
    apply JsMapFacts.get_Some_elem in Hget. apply Hin in Hget as [Hr' He].
    rewrite (wf_functional _ _ _ _ Hwf Hr' H) in He.
    apply isExpired_false in He. lia.
Qed.

(** Three records aged 601 s, 600 s and 1 s: the first goes, the others
    stay. *)
Lemma sweep_deletes_exactly_expired_witness :
  let old := mkOtp "111111" "ann" 0 in
  let edge := mkOtp "222222" "bob" 1000 in
  let young := mkOtp "333333" "cy" 600000 in
  let st := mkState [(1, old); (2, edge); (3, young)] ∅ in
  otpStorage (sweep 601000 st) = [(2, edge); (3, young)] ∧
  userSessions (sweep 601000 st) = userSessions st.
Proof.
  intros old edge young st.
  destruct (sweep_deletes_exactly_expired 601000 st) as (H & _ & _ & _ & Hs).
  - wf_concrete.
  - split; [exact H | exact Hs].
Defined.

(* ===================================================================== *)
(** ** An expired first match ends the scan *)
(* ===================================================================== *)

(** Repeated attempts work through the matching records in iteration
    order, one per attempt: after as many attempts as [mid] has matches,
    the entries of [mid] that are left are those that do not match. *)
Lemma attempts_consume_matches {eng : Engine} env name code c2 r2 post :
  Str.truthy name = true → Str.truthy code = true →
  ∀ mid pre sessions,
    JsMap.wf (pre ++ mid ++ (c2, r2) :: post) →
    noMatch name code pre = true →
    noZeroKey mid = true →
    ∃ pre' sessions',
      noMatch name code pre' = true ∧
      attempts env (mkBody (Some name) (Some code))
               (countMatches name code mid)
               (mkState (pre ++ mid ++ (c2, r2) :: post) sessions)
      = mkState (pre' ++ (c2, r2) :: post) sessions'.
Proof.
  intros Hn Hc. induction mid as [|[c r] mid IH]; intros pre sessions Hwf Hpre Hz.
  - exists pre, sessions. split; [exact Hpre | reflexivity].
  - simpl in Hz. apply andb_true_iff in Hz as [Hc0 Hz].
    apply negb_true_iff, Z.eqb_neq in Hc0.
    unfold countMatches. simpl.
    destruct (matches name code r) eqn:Hr.
    + simpl. fold (countMatches name code mid).
      assert (Hwf' : JsMap.wf (pre ++ mid ++ (c2, r2) :: post))
        by (eapply wf_app_drop; exact Hwf).
      set (st := mkState (pre ++ (c, r) :: mid ++ (c2, r2) :: post) sessions).
      destruct (isExpired (now_check env) r) eqn:He.
      * rewrite (verify_first_expired env name code st Hn Hc pre c r
                   (mid ++ (c2, r2) :: post) Hwf eq_refl Hpre Hr He).
        simpl. apply IH; assumption.
      * rewrite (verify_first_live env name code st Hn Hc pre c r
                   (mid ++ (c2, r2) :: post) Hwf eq_refl Hpre Hr He Hc0).
        simpl. apply IH; assumption.
    + fold (countMatches name code mid).
      destruct (IH (pre ++ [(c, r)]) sessions) as (pre' & sessions' & Hp & Ha).
      * rewrite <- app_assoc. exact Hwf.
      * rewrite noMatch_app, Hpre. simpl. rewrite Hr. reflexivity.
      * exact Hz.
      * exists pre', sessions'. split; [exact Hp|].
        rewrite <- app_assoc in Ha. exact Ha.
Qed.

(** The early return, where chat ids are not zero. Let the first record
    matching the submitted pair be expired, and let a later record
    [(c2, r2)] match the same pair. Verification answers [Expired] and
    deletes the first record only: the record of [c2] is still in the map,
    unchanged, with every other record, and no session is created. When
    [c2] and the chat ids between the two are not zero, the record of [c2]
    can still be verified: at a time when it is not expired, once the
    matching records between the two have been met by one attempt each,
    the next attempt succeeds on the record of [c2]. *)
Theorem expired_first_match_stops_scan {eng : Engine}
    env env' name code st pre c1 r1 mid c2 r2 post :
  JsMap.wf (otpStorage st) →
  Str.truthy name = true → Str.truthy code = true →
  otpStorage st = pre ++ (c1, r1) :: mid ++ (c2, r2) :: post →
  noMatch name code pre = true →
  matches name code r1 = true → isExpired (now_check env) r1 = true →
  matches name code r2 = true →
  let body := mkBody (Some name) (Some code) in
  let st' := mkState (pre ++ mid ++ (c2, r2) :: post) (userSessions st) in
  verifyOtp env body st = (Expired, st') ∧
  JsMap.get c1 (otpStorage st') = None ∧
  JsMap.get c2 (otpStorage st') = Some r2 ∧
  (isExpired (now_check env') r2 = false →
   noZeroKey mid = true → c2 ≠ 0 →
   let st'' := attempts env' body (countMatches name code mid) st' in
   let sid := generateSessionId (rendering1 env') (rendering2 env') in
   fst (verifyOtp env' body st'') = Ok200 sid (username r2) ∧
   userSessions (snd (verifyOtp env' body st'')) !! sid
   = Some (mkSession c2 (username r2) true (now_session env')) ∧
   JsMap.get c2 (otpStorage (snd (verifyOtp env' body st''))) = None).
Proof.
  intros Hwf Hn Hc Hst Hpre Hr1 He1 Hr2 body st'.
  assert (Hwf' : JsMap.wf (otpStorage st')).
  { simpl. rewrite Hst in Hwf. eapply wf_app_drop. exact Hwf. }
  split; [|split; [|split]].
  - eapply verify_first_expired; eauto.
  - simpl. rewrite Hst in Hwf.
    rewrite <- (JsMapFacts.delete_middle c1 r1 pre _ Hwf).
    apply JsMapFacts.get_delete_eq.
  - apply JsMapFacts.elem_get_Some; [exact Hwf'|]. simpl.
    rewrite !elem_of_app. right. right. left.
  - intros He2 Hz Hc2 st'' sid.
    destruct (attempts_consume_matches env' name code c2 r2 post Hn Hc
                mid pre (userSessions st) Hwf' Hpre Hz)
      as (pre' & sessions' & Hpre' & Hatt).
    fold body in Hatt. fold st' in Hatt. fold st'' in Hatt.
    assert (Hwf'' : JsMap.wf (otpStorage st'')).
    { unfold st''. clear Hatt. generalize (countMatches name code mid).
      intros n. revert Hwf'. generalize st'. induction n as [|n IHn];
        intros s Hs; simpl; [exact Hs|]. apply IHn. apply verify_wf. exact Hs. }
    rewrite Hatt in Hwf'' |- *. simpl in Hwf''. unfold body.
    rewrite (verify_first_live env' name code
               (mkState (pre' ++ (c2, r2) :: post) sessions')
               Hn Hc pre' c2 r2 post Hwf'' eq_refl Hpre' Hr2 He2 Hc2).
    simpl. split; [reflexivity|]. split.
    + fold sid. apply lookup_insert_eq.
    + rewrite <- (JsMapFacts.delete_middle c2 r2 pre' post Hwf'').
      apply JsMapFacts.get_delete_eq.
Qed.

(** Chats 1 and 2 hold expired records and chat 3 a live one, all three
    with the same name, up to case, and the same code. The first attempt
    fails with [Expired] and leaves the records of chats 2 and 3; the
    second meets the record of chat 2; the third succeeds on the record of
    chat 3. *)
Lemma expired_first_match_stops_scan_witness :
  let r1 := mkOtp "123456" "alice" 0 in
  let r2 := mkOtp "123456" "ALICE" 500 in
  let r3 := mkOtp "123456" "Alice" 2000 in
  let st := mkState [(1, r1); (2, r2); (3, r3)] ∅ in
  let env := mkEnv 601000 601000 "0.4fzyo82mvyr" "0.k3j2h1g0f9e" in
  let body := mkBody (Some "alice") (Some "123456") in
  verifyOtp env body st = (Expired, mkState [(2, r2); (3, r3)] ∅) ∧
  verifyOtp env body (mkState [(2, r2); (3, r3)] ∅)
  = (Expired, mkState [(3, r3)] ∅) ∧
  fst (verifyOtp env body (mkState [(3, r3)] ∅))
  = Ok200 "4fzyo82mvyrk3j2h1g0f9e" "Alice".
Proof.
  intros r1 r2 r3 st env body.
  destruct (expired_first_match_stops_scan env env "alice" "123456" st
              [] 1 r1 [(2, r2)] 3 r3 [])
    as (H1 & _ & _ & H2).
  - wf_concrete.
  - reflexivity.
  - reflexivity.
  - reflexivity.
  - reflexivity.
  - reflexivity.
  - reflexivity.
  - reflexivity.
  - assert (Hc3 : (3 : Z) ≠ 0) by discriminate.
    split; [exact H1|]. split; [reflexivity|].
    exact (proj1 (H2 eq_refl eq_refl Hc3)).
Defined.

(** C9, on the code. The first record matching the submitted pair, that
    of chat 1, is expired, and a later record, stored under the chat id 0,
    matches the same pair and is not expired. Verification answers
    [Expired], deletes the record of chat 1 and leaves the later record in
    the map, as C9 says. But the later record does not remain verifiable:
    the scan finds it, the test [!foundChatId] reads the chat id 0 as
    nothing found, and every subsequent attempt, however many, answers
    [InvalidCredentials] and leaves the record where it is. *)
Theorem later_record_under_chat_zero_is_not_verifiable :
  let later := mkOtp "123456" "alice" 2000 in
  let st := onStart (mkMessage 0 (Some "alice") None) "123456" 2000
              (onStart (mkMessage 1 (Some "alice") None) "123456" 0
                 (mkState [] ∅)) in
  let env := mkEnv 601000 601000 "0.4fzyo82mvyr" "0.k3j2h1g0f9e" in
  let body := mkBody (Some "alice") (Some "123456") in
  let st' := snd (verifyOtp env body st) in
  matches "alice" "123456" later = true ∧
  isExpired (now_check env) later = false ∧
  fst (verifyOtp env body st) = Expired ∧
  otpStorage st' = [(0, later)] ∧
  ∀ n, attempts env body n st' = st' ∧
       verifyOtp env body (attempts env body n st') = (InvalidCredentials, st').
Proof.
  intros later st env body st'.
  split; [reflexivity|]. split; [reflexivity|]. split; [reflexivity|].
  split; [reflexivity|].
  assert (Hstuck : verifyOtp env body st' = (InvalidCredentials, st'))
    by reflexivity.
  assert (Hn : ∀ n, attempts env body n st' = st').
  { induction n as [|n IH]; [reflexivity|].
    change (attempts env body n (snd (verifyOtp env body st')) = st').
    rewrite Hstuck. exact IH. }
  intros n. split; [apply Hn|]. rewrite Hn. exact Hstuck.
Qed.

(* ===================================================================== *)
(** ** What each outcome does to the two maps *)
(* ===================================================================== *)

(** C10. Every call of the verification route ends in one of four ways.
    [InvalidRequest] and [InvalidCredentials] leave the OTP map and the
    session map exactly as they were. [Expired] removes one record, the
    first that matches the submitted pair, and leaves the session map as it
    was. Success removes one record, the first that matches, and inserts
    one session record. *)
Theorem verify_outcomes {eng : Engine} env body st :
  JsMap.wf (otpStorage st) →
  let out := verifyOtp env body st in
  (fst out = InvalidRequest ∧ snd out = st) ∨
  (fst out = InvalidCredentials ∧ snd out = st) ∨
  (fst out = Expired ∧
   ∃ name code pre c r post,
     b_username body = Some name ∧ b_otp body = Some code ∧
     otpStorage st = pre ++ (c, r) :: post ∧
     noMatch name code pre = true ∧ matches name code r = true ∧
     isExpired (now_check env) r = true ∧
     snd out = mkState (pre ++ post) (userSessions st)) ∨
  (∃ name code pre c r post,
     let sid := generateSessionId (rendering1 env) (rendering2 env) in
     b_username body = Some name ∧ b_otp body = Some code ∧
     otpStorage st = pre ++ (c, r) :: post ∧
     noMatch name code pre = true ∧ matches name code r = true ∧
     isExpired (now_check env) r = false ∧
     fst out = Ok200 sid (username r) ∧
     snd out = mkState (pre ++ post)
                 (<[sid := mkSession c (username r) true (now_session env)]>
                    (userSessions st))).
Proof.
  intros Hwf out. unfold out, verifyOtp.
  destruct (b_username body) as [name|] eqn:Hbn; [|left; auto].
  destruct (b_otp body) as [code|] eqn:Hbc; [|left; auto].
  destruct (_ || _); [left; auto|].
  destruct (scan _ _ _ _) as [c|c r|] eqn:Hscan.
  - right; right; left. split; [reflexivity|].
    apply scan_expired_inv in Hscan as (pre & r & post & Hst & Hpre & Hr & He).
    exists name, code, pre, c, r, post. repeat split; auto. simpl.
    rewrite Hst in Hwf |- *.
    rewrite (JsMapFacts.delete_middle c r pre post Hwf). reflexivity.
  - destruct (c =? 0); [right; left; auto|].
    right; right; right.
    apply scan_found_inv in Hscan as (pre & post & Hst & Hpre & Hr & He).
    exists name, code, pre, c, r, post. repeat split; auto. simpl.
    rewrite Hst in Hwf |- *.
    rewrite (JsMapFacts.delete_middle c r pre post Hwf). reflexivity.
  - right; left. auto.
Qed.

(** A code that was never issued: the answer is [InvalidCredentials] and
    both maps are as before. *)
Lemma verify_outcomes_witness :
  let st := mkState [(42, mkOtp "123456" "alice" 0)] ∅ in
  let env := mkEnv 1000 1000 "0.4fzyo82mvyr" "0.k3j2h1g0f9e" in
  let out := verifyOtp env (mkBody (Some "alice") (Some "654321")) st in
  fst out = InvalidCredentials ∧ snd out = st.
Proof.
  intros st env out.
  destruct (verify_outcomes env (mkBody (Some "alice") (Some "654321")) st)
    as [[H _]|[H|[[H _]|(? & ? & ? & ? & ? & ? & _ & _ & _ & _ & _ & _ & H & _)]]].
  - wf_concrete.
  - discriminate H.
  - exact H.
  - discriminate H.
  - discriminate H.
Defined.

(* ===================================================================== *)
(** * Further properties of the handlers *)
(* ===================================================================== *)

(** ** Bodies of any JSON type *)

(** On strings the general scan is the scan of [verifyOtp]. *)
Lemma scanAny_strings {eng : Engine} now name code entries :
  scanAny now (FStr name) (FStr code) entries
  = Some (scan now name code entries).
Proof.
  induction entries as [|[c r] entries IH]; simpl; [reflexivity|].
  unfold matches. destruct (_ && _); [|exact IH].
  destruct (isExpired now r); reflexivity.
Qed.

(** On bodies whose fields are strings or missing, the general handler is
    [verifyOtp]. *)
Lemma verifyOtpAny_strings {eng : Engine} env body st :
  verifyOtpAny env (field_of (b_username body)) (field_of (b_otp body)) st
  = (Responded (fst (verifyOtp env body st)), snd (verifyOtp env body st)).
Proof.
  unfold verifyOtpAny, verifyOtp.
  destruct (b_username body) as [name|], (b_otp body) as [code|]; simpl;
    try reflexivity.
  - destruct (negb (Str.truthy name) || negb (Str.truthy code));
      [reflexivity|].
    rewrite scanAny_strings.
    destruct (scan _ _ _ _) as [c|c r|]; try reflexivity.
    destruct (c =? 0); reflexivity.
  - rewrite orb_true_r. reflexivity.
Qed.

Lemma scanAny_other_otp {eng : Engine} now name t entries :
  scanAny now (FStr name) (FOther t) entries = Some ScanNone.
Proof.
  induction entries as [|[c r] entries IH]; simpl; [reflexivity|].
  rewrite andb_false_r. exact IH.
Qed.

(** A truthy field that is not a string (the code sent as the JSON number
    [123456], say) never verifies. As the [otp] it is answered with
    [InvalidCredentials] whatever the map holds, even next to the right
    username. As the [username] it makes the handler throw as soon as the
    map holds one record, and is answered with [InvalidCredentials] on an
    empty map. In each case both maps are left as they were. *)
Theorem field_of_other_type_never_verifies {eng : Engine} env name o st :
  Str.truthy name = true → field_truthy o = true →
  verifyOtpAny env (FStr name) (FOther true) st
  = (Responded InvalidCredentials, st) ∧
  verifyOtpAny env (FOther true) o st
  = (match otpStorage st with
     | [] => Responded InvalidCredentials
     | _ :: _ => Thrown
     end, st).
Proof.
  intros Hn Ho. unfold verifyOtpAny. simpl. rewrite Hn, Ho. simpl. split.
  - rewrite scanAny_other_otp. reflexivity.
  - destruct (otpStorage st) as [|[c r] rest]; reflexivity.
Qed.

Lemma field_of_other_type_never_verifies_witness :
  let st := onStart (mkMessage 42 (Some "alice") None) "123456" 0
              (mkState [] ∅) in
  let env := mkEnv 1000 1000 "0.4fzyo82mvyr" "0.k3j2h1g0f9e" in
  verifyOtpAny env (FStr "alice") (FOther true) st
  = (Responded InvalidCredentials, st) ∧
  verifyOtpAny env (FOther true) (FStr "123456") st = (Thrown, st).
Proof.
  intros st env.
  exact (field_of_other_type_never_verifies env "alice" (FStr "123456") st
           eq_refl eq_refl).
Defined.

(** ** A record stored under the chat id 0 *)

(** When the first record that matches the submitted pair is not expired
    and sits under the chat id 0, the test [!foundChatId] takes it for
    not found: the answer is [InvalidCredentials], nothing is deleted and
    no session is created. The scan has stopped at it, so a later record
    matching the same pair is not reached either, and repeating the attempt
    changes nothing. *)
Theorem zero_chat_id_blocks_verification {eng : Engine} env name code st pre r post :
  Str.truthy name = true → Str.truthy code = true →
  otpStorage st = pre ++ (0, r) :: post →
  noMatch name code pre = true →
  matches name code r = true →
  isExpired (now_check env) r = false →
  let body := mkBody (Some name) (Some code) in
  verifyOtp env body st = (InvalidCredentials, st) ∧
  ∀ n, attempts env body n st = st.
Proof.
  intros Hn Hc Hst Hpre Hr He body.
  assert (H : verifyOtp env body st = (InvalidCredentials, st)).
  { unfold body. rewrite (verify_scan env name code st Hn Hc), Hst.
    rewrite (scan_first _ _ _ _ _ _ _ Hpre Hr), He. reflexivity. }
  split; [exact H|].
  induction n as [|n IH]; simpl; [reflexivity|]. rewrite H. exact IH.
Qed.

(** A live record under chat id 0 in front of a live record of chat 7 with
    the same name and code: neither can be verified. *)
Lemma zero_chat_id_blocks_verification_witness :
  let st := mkState [(0, mkOtp "123456" "alice" 0);
                     (7, mkOtp "123456" "alice" 0)] ∅ in
  let env := mkEnv 1000 1000 "0.4fzyo82mvyr" "0.k3j2h1g0f9e" in
  let body := mkBody (Some "alice") (Some "123456") in
  verifyOtp env body st = (InvalidCredentials, st) ∧
  attempts env body 3 st = st.
Proof.
  intros st env body.
  destruct (zero_chat_id_blocks_verification env "alice" "123456" st
              [] (mkOtp "123456" "alice" 0) [(7, mkOtp "123456" "alice" 0)])
    as [H1 H2]; try reflexivity.
  split; [exact H1 | exact (H2 3%nat)].
Defined.

(** ** [GET /api/user/:chatId] next to the other handlers *)

Lemma get_filter {V} (P : Z * V → bool) k (m : list (Z * V)) :
  JsMap.wf m →
  JsMap.get k (List.filter P m)
  = match JsMap.get k m with
    | Some v => if P (k, v) then Some v else None
    | None => None
    end.
Proof.
  unfold JsMap.wf. induction m as [|[k0 v0] m IH]; simpl; [reflexivity|].
  intros Hnd. apply NoDup_cons in Hnd as [Hk0 Hnd].
  destruct (Z.eqb_spec k0 k) as [->|Hne].
  - destruct (P (k, v0)); simpl.
    + rewrite Z.eqb_refl. reflexivity.
    + rewrite (IH Hnd).
      apply JsMapFacts.get_None_keys in Hk0. rewrite Hk0. reflexivity.
  - destruct (P (k0, v0)); simpl; [|exact (IH Hnd)].
    destruct (Z.eqb_spec k0 k); [contradiction | exact (IH Hnd)].
Qed.

(** After [/start] from a chat, the lookup of that chat answers with the
    display name, the time of issue and [hasOTP] of the record just
    stored, whatever was stored for it before; the lookup of every other
    chat answers as before. *)
Theorem user_lookup_after_start msg code now st k :
  getUser (Some k) (onStart msg code now st)
  = if k =? chat_id msg
    then UserOk (displayName msg) (Str.truthy code) now
    else getUser (Some k) st.
Proof.
  unfold getUser, onStart, issueOtp. simpl.
  destruct (Z.eqb_spec k (chat_id msg)) as [->|Hne].
  - rewrite JsMapFacts.get_set_eq. reflexivity.
  - rewrite JsMapFacts.get_set_ne by exact Hne. reflexivity.
Qed.

(** A verification either leaves the state as it was, answering
    [InvalidRequest] or [InvalidCredentials], or takes away the record of
    one chat [c] and nothing else: the map after is the map before with
    the entry of [c] deleted, so every entry left was there before, and
    every other chat holds the very record it held, code, name and time of
    issue. The lookup of [c], which answered 200 before, answers 404
    after, and the lookup of every other chat answers as before. A
    verification never adds a record and never alters one. *)
Theorem user_lookup_after_verify {eng : Engine} env body st :
  let out := verifyOtp env body st in
  (snd out = st ∧ (fst out = InvalidRequest ∨ fst out = InvalidCredentials)) ∨
  (∃ c, otpStorage (snd out) = JsMap.delete c (otpStorage st) ∧
        getUser (Some c) st ≠ UserNotFound ∧
        getUser (Some c) (snd out) = UserNotFound ∧
        (∀ k r, (k, r) ∈ otpStorage (snd out) → (k, r) ∈ otpStorage st) ∧
        (∀ k, k ≠ c →
           JsMap.get k (otpStorage (snd out)) = JsMap.get k (otpStorage st)) ∧
        (∀ k, k ≠ c → getUser (Some k) (snd out) = getUser (Some k) st)).
Proof.
  intros out. unfold out, verifyOtp.
  destruct (b_username body) as [name|]; [|left; auto].
  destruct (b_otp body) as [code|]; [|left; auto].
  destruct (_ || _); [left; auto|].
  assert (Hgone : ∀ c r pre post,
            otpStorage st = pre ++ (c, r) :: post →
            ∀ sessions,
              let st' := mkState (JsMap.delete c (otpStorage st)) sessions in
              otpStorage st' = JsMap.delete c (otpStorage st) ∧
              getUser (Some c) st ≠ UserNotFound ∧
              getUser (Some c) st' = UserNotFound ∧
              (∀ k r, (k, r) ∈ otpStorage st' → (k, r) ∈ otpStorage st) ∧
              (∀ k, k ≠ c →
                 JsMap.get k (otpStorage st') = JsMap.get k (otpStorage st)) ∧
              (∀ k, k ≠ c → getUser (Some k) st' = getUser (Some k) st)).
  { intros c r pre post Hst sessions st'. unfold getUser. simpl.
    split; [reflexivity|]. split; [|split; [|split; [|split]]].
    - destruct (JsMap.get c (otpStorage st)) eqn:Hget; [discriminate|].
      exfalso. apply JsMapFacts.get_None_keys in Hget. apply Hget.
      rewrite Hst. unfold JsMap.keys. rewrite fmap_app, fmap_cons.
      apply elem_of_app. right. left.
    - rewrite JsMapFacts.get_delete_eq. reflexivity.
    - intros k r0 H. apply JsMapFacts.elem_of_delete in H as [H _]. exact H.
    - intros k Hk. apply JsMapFacts.get_delete_ne. exact Hk.
    - intros k Hk. rewrite JsMapFacts.get_delete_ne by exact Hk.
      reflexivity. }
  destruct (scan _ _ _ _) as [c|c r|] eqn:Hscan.
  - right. exists c.
    apply scan_expired_inv in Hscan as (pre & r & post & Hst & _).
    exact (Hgone c r pre post Hst _).
  - destruct (c =? 0); [left; auto|]. right. exists c.
    apply scan_found_inv in Hscan as (pre & post & Hst & _).
    exact (Hgone c r pre post Hst _).
  - left. auto.
Qed.

(** After a run of the sweeper at [now], the lookup of a chat answers 404
    when it answered 404 before or when its record was issued more than 10
    minutes before [now], and answers as before otherwise. *)
Theorem user_lookup_after_sweep now st k :
  JsMap.wf (otpStorage st) →
  getUser (Some k) (sweep now st)
  = match getUser (Some k) st with
    | UserOk name hasOTP issued =>
        if now - issued >? EXPIRY_MS then UserNotFound
        else UserOk name hasOTP issued
    | UserNotFound => UserNotFound
    end.
Proof.
  intros Hwf. unfold getUser, sweep. simpl.
  rewrite (sweepStorage_filter now _ Hwf), (get_filter _ _ _ Hwf).
  destruct (JsMap.get k (otpStorage st)) as [r|]; [|reflexivity].
  simpl. unfold isExpired. destruct (_ >? _); reflexivity.
Qed.

Lemma user_lookup_after_sweep_witness :
  let st := mkState [(1, mkOtp "111111" "ann" 0);
                     (2, mkOtp "222222" "bob" 1000)] ∅ in
  getUser (Some 1) (sweep 601000 st) = UserNotFound ∧
  getUser (Some 2) (sweep 601000 st) = UserOk "bob" true 1000.
Proof.
  intros st.
  assert (Hwf : JsMap.wf (otpStorage st)) by wf_concrete.
  split.
  - exact (user_lookup_after_sweep 601000 st 1 Hwf).
  - exact (user_lookup_after_sweep 601000 st 2 Hwf).
Defined.

(** ** [GET /api/debug/otps] next to the other handlers *)

Lemma debugFrom_steady clock now i entries :
  (∀ j, clock j = now) →
  debugFrom clock i entries = map (itemAt now) entries.
Proof.
  intros Hclock. revert i.
  induction entries as [|[c r] entries IH]; intros i; simpl; [reflexivity|].
  rewrite Hclock, IH. reflexivity.
Qed.

(** When the clock does not move while the listing is built, the items it
    does not flag as expired are, in the same order, the listing of the map
    that a run of the sweeper at that time leaves: the flag and the sweeper
    agree on every record. *)
Theorem debug_flags_agree_with_sweeper clock now st :
  JsMap.wf (otpStorage st) →
  (∀ i, clock i = now) →
  List.filter (fun item => negb (d_expired item)) (debugOtps clock st)
  = debugOtps clock (sweep now st).
Proof.
  intros Hwf Hclock. unfold debugOtps, sweep. simpl.
  rewrite !(debugFrom_steady clock now) by exact Hclock.
  rewrite (sweepStorage_filter now _ Hwf). clear Hwf.
  induction (otpStorage st) as [|[c r] entries IH]; simpl; [reflexivity|].
  destruct (isExpired now r); simpl; [|f_equal]; exact IH.
Qed.

Lemma debug_flags_agree_with_sweeper_witness :
  let st := mkState [(1, mkOtp "111111" "ann" 0);
                     (2, mkOtp "222222" "bob" 1000)] ∅ in
  List.filter (fun item => negb (d_expired item))
              (debugOtps (fun _ => 601000) st)
  = [mkItem 2 "bob" "222222" 1000 false].
Proof.
  intros st.
  refine (debug_flags_agree_with_sweeper (fun _ => 601000) 601000 st _ _).
  - wf_concrete.
  - reflexivity.
Defined.

(** The listing holds one item per stored record, and what
    [GET /api/user/:chatId] answers for a chat is what the listing shows
    under that chat id: the same name and time of issue, and [hasOTP] when
    the listed code is not empty; a chat that is not listed is not found. *)
Theorem debug_listing_matches_lookup clock st k :
  length (debugOtps clock st) = length (otpStorage st) ∧
  getUser (Some k) st
  = match List.find (fun item => d_chatId item =? k) (debugOtps clock st) with
    | Some item =>
        UserOk (d_username item) (Str.truthy (d_otp item)) (d_timestamp item)
    | None => UserNotFound
    end.
Proof.
  unfold debugOtps, getUser. generalize 0%nat.
  induction (otpStorage st) as [|[c r] entries IH]; intros i; simpl;
    [split; reflexivity|].
  destruct (IH (S i)) as [Hlen Hfind]. split; [f_equal; exact Hlen|].
  destruct (c =? k); [reflexivity | exact Hfind].
Qed.

(** ** What holds in every state of the server *)

Lemma or_else_truthy a b :
  Str.truthy b = true → Str.truthy (or_else a b) = true.
Proof.
  intros Hb. unfold or_else. destruct a as [s|]; [|exact Hb].
  destruct (Str.truthy s) eqn:Hs; [exact Hs | exact Hb].
Qed.

Lemma displayName_truthy msg : Str.truthy (displayName msg) = true.
Proof. unfold displayName. apply or_else_truthy, or_else_truthy. reflexivity. Qed.

Lemma sweep_fold_subset now todo acc c r :
  (c, r) ∈ fold_left (sweepEntry now) todo acc → (c, r) ∈ acc.
Proof.
  revert acc. induction todo as [|e todo IH]; intros acc; simpl; [auto|].
  intros H. apply IH in H. unfold sweepEntry in H.
  destruct (isExpired now (snd e)); [|exact H].
  apply JsMapFacts.elem_of_delete in H as [H _]. exact H.
Qed.

Lemma verify_storage_subset {eng : Engine} env body st c r :
  (c, r) ∈ otpStorage (snd (verifyOtp env body st)) → (c, r) ∈ otpStorage st.
Proof.
  unfold verifyOtp.
  destruct (b_username body) as [name|]; [|auto].
  destruct (b_otp body) as [code|]; [|auto].
  destruct (_ || _); [auto|].
  destruct (scan _ _ _ _) as [c0|c0 r0|]; simpl; [| |auto].
  - intros H. apply JsMapFacts.elem_of_delete in H as [H _]. exact H.
  - destruct (c0 =? 0); simpl; [auto|].
    intros H. apply JsMapFacts.elem_of_delete in H as [H _]. exact H.
Qed.

(** The invariant, proved once for the statements below: stored display
    names are not empty, and session records are verified, belong to a
    non-zero chat id and carry a name that is not empty. *)
Lemma reachable_inv {eng : Engine} st :
  reachable st →
  (∀ c r, (c, r) ∈ otpStorage st → Str.truthy (username r) = true) ∧
  (∀ sid s, userSessions st !! sid = Some s →
            s_verified s = true ∧ s_chatId s ≠ 0 ∧
            Str.truthy (s_username s) = true).
Proof.
  intros Hreach.
  induction Hreach as [|st msg code now Hreach [IHn IHs]
                       |st env body Hreach [IHn IHs]
                       |st now Hreach [IHn IHs]].
  - split; [intros c r H; inversion H | intros sid s H].
    simpl in H. rewrite lookup_empty in H. discriminate.
  - split; [|exact IHs]. intros c r H. simpl in H.
    apply (JsMapFacts.elem_of_set _ _ _ _ _ (reachable_wf st Hreach)) in H
      as [[_ ->]|[_ H]]; [apply displayName_truthy | eauto].
  - split; [intros c r H; apply verify_storage_subset in H; eauto|].
    unfold verifyOtp.
    destruct (b_username body) as [name|]; [|exact IHs].
    destruct (b_otp body) as [code|]; [|exact IHs].
    destruct (_ || _); [exact IHs|].
    destruct (scan _ _ _ _) as [c0|c0 r0|] eqn:Hscan; [exact IHs| |exact IHs].
    destruct (Z.eqb_spec c0 0) as [|Hc0]; [exact IHs|].
    simpl. intros sid s H.
    apply lookup_insert_Some in H as [[_ <-]|[_ H]]; [|eauto].
    simpl. repeat split; [exact Hc0|].
    apply scan_found_inv in Hscan as (pre & post & Hst & _).
    apply (IHn c0). rewrite Hst. apply elem_of_app. right. left.
  - split; [|exact IHs]. intros c r H. simpl in H.
    apply sweep_fold_subset in H. eauto.
Qed.

(** In every state of the server, every stored record carries a display
    name that is not empty: a sender without handle and first name is
    stored as [User]. So the username of a stored record always passes the
    presence test of the verification route. *)
Theorem stored_names_are_never_empty {eng : Engine} st c r :
  reachable st → (c, r) ∈ otpStorage st → Str.truthy (username r) = true.
Proof. intros Hreach. apply (proj1 (reachable_inv st Hreach)). Qed.

Lemma stored_names_are_never_empty_witness :
  Str.truthy (username (mkOtp "123456" "User" 0)) = true.
Proof.
  refine (stored_names_are_never_empty
            (onStart (mkMessage 42 (Some "") None) "123456" 0 (mkState [] ∅))
            42 _ (reach_start _ _ _ _ reach_init) _).
  left.
Defined.

(** In every state of the server, what [GET /api/session/:sessionId]
    answers for a session that exists has [verified = true] and a username
    that is not empty, and the session belongs to a chat id other than 0:
    no handler creates a session in another way. *)
Theorem sessions_are_verified {eng : Engine} st sid :
  reachable st →
  (∀ name verified created,
     getSession sid st = SessionOk name verified created →
     verified = true ∧ Str.truthy name = true) ∧
  (∀ s, userSessions st !! sid = Some s → s_chatId s ≠ 0).
Proof.
  intros Hreach. destruct (reachable_inv st Hreach) as [_ Hs]. split.
  - intros name verified created. unfold getSession.
    destruct (userSessions st !! sid) as [s|] eqn:Hsid; [|discriminate].
    intros [= <- <- _]. destruct (Hs sid s Hsid) as (? & _ & ?). auto.
  - intros s Hsid. apply (Hs sid s Hsid).
Qed.

Lemma sessions_are_verified_witness :
  let st := onStart (mkMessage 42 (Some "alice") None) "123456" 0
              (mkState [] ∅) in
  let env := mkEnv 1000 1000 "0.4fzyo82mvyr" "0.k3j2h1g0f9e" in
  let st' := snd (verifyOtp env (mkBody (Some "alice") (Some "123456")) st) in
  getSession "4fzyo82mvyrk3j2h1g0f9e" st' = SessionOk "alice" true 1000 ∧
  true = true ∧ Str.truthy "alice" = true.
Proof.
  intros st env st'. split; [reflexivity|].
  refine (proj1 (sessions_are_verified st' "4fzyo82mvyrk3j2h1g0f9e" _)
            "alice" true 1000 _).
  - apply reach_verify, reach_start, reach_init.
  - reflexivity.
Defined.

(** No handler removes a session: a session id that
    [GET /api/session/:sessionId] finds is still found after [/start],
    after a run of the sweeper and after any verification. [/start] and
    the sweeper leave the whole session map as it is. *)
Theorem sessions_are_never_removed {eng : Engine} st sid :
  getSession sid st ≠ SessionNotFound →
  (∀ msg code now,
     userSessions (onStart msg code now st) = userSessions st) ∧
  (∀ now, userSessions (sweep now st) = userSessions st) ∧
  (∀ env body,
     getSession sid (snd (verifyOtp env body st)) ≠ SessionNotFound).
Proof.
  intros Hsid. split; [reflexivity|]. split; [reflexivity|].
  intros env body. unfold verifyOtp.
  destruct (b_username body) as [name|]; [|exact Hsid].
  destruct (b_otp body) as [code|]; [|exact Hsid].
  destruct (_ || _); [exact Hsid|].
  destruct (scan _ _ _ _) as [c0|c0 r0|]; [exact Hsid| |exact Hsid].
  destruct (c0 =? 0); [exact Hsid|].
  revert Hsid. unfold getSession. simpl.
  destruct (decide (generateSessionId (rendering1 env) (rendering2 env) = sid))
    as [<-|Hne].
  - rewrite lookup_insert_eq. discriminate.
  - rewrite lookup_insert_ne by exact Hne. auto.
Qed.

Lemma sessions_are_never_removed_witness :
  let st := onStart (mkMessage 43 (Some "bob") None) "654321" 0
              (onStart (mkMessage 42 (Some "alice") None) "123456" 0
                 (mkState [] ∅)) in
  let env := mkEnv 1000 1000 "0.4fzyo82mvyr" "0.k3j2h1g0f9e" in
  let env' := mkEnv 2000 2000 "0.9x8w7v6u5t4" "0.a1b2c3d4e5f" in
  let st1 := snd (verifyOtp env (mkBody (Some "alice") (Some "123456")) st) in
  getSession "4fzyo82mvyrk3j2h1g0f9e"
    (snd (verifyOtp env' (mkBody (Some "bob") (Some "654321")) st1))
  ≠ SessionNotFound.
Proof.
  intros st env env' st1.
  refine (proj2 (proj2 (sessions_are_never_removed st1
            "4fzyo82mvyrk3j2h1g0f9e" _)) env' _).
  discriminate.
Defined.

(** [userSessions.set] overwrites. When a verification succeeds with a
    session id that the session map already holds, the earlier session is
    replaced: the id now answers with the name just verified, the number of
    sessions does not grow, and every other session is as before. *)
Theorem colliding_session_id_overwrites {eng : Engine} env body st sid name st' old :
  userSessions st !! sid = Some old →
  verifyOtp env body st = (Ok200 sid name, st') →
  getSession sid st' = SessionOk name true (now_session env) ∧
  size (userSessions st') = size (userSessions st) ∧
  ∀ sid', sid' ≠ sid → userSessions st' !! sid' = userSessions st !! sid'.
Proof.
  intros Hold. unfold verifyOtp.
  destruct (b_username body) as [u|]; [|discriminate].
  destruct (b_otp body) as [code|]; [|discriminate].
  destruct (_ || _); [discriminate|].
  destruct (scan _ _ _ _) as [c0|c0 r0|]; try discriminate.
  destruct (c0 =? 0); [discriminate|].
  cbv zeta. intros [= <- <- <-]. simpl. split; [|split].
  - unfold getSession. simpl. rewrite lookup_insert_eq. reflexivity.
  - apply map_size_insert_Some. exists old. exact Hold.
  - intros sid' Hne. apply lookup_insert_ne. congruence.
Qed.

(** The random source gives the same two numbers to the verification of
    [alice] and, later, to that of [bob]: the session of [alice] becomes a
    session of [bob]. *)
Lemma colliding_session_id_overwrites_witness :
  let st := onStart (mkMessage 43 (Some "bob") None) "654321" 0
              (onStart (mkMessage 42 (Some "alice") None) "123456" 0
                 (mkState [] ∅)) in
  let env := mkEnv 1000 1000 "0.4fzyo82mvyr" "0.k3j2h1g0f9e" in
  let env' := mkEnv 2000 2000 "0.4fzyo82mvyr" "0.k3j2h1g0f9e" in
  let st1 := snd (verifyOtp env (mkBody (Some "alice") (Some "123456")) st) in
  let st2 := snd (verifyOtp env' (mkBody (Some "bob") (Some "654321")) st1) in
  getSession "4fzyo82mvyrk3j2h1g0f9e" st1 = SessionOk "alice" true 1000 ∧
  getSession "4fzyo82mvyrk3j2h1g0f9e" st2 = SessionOk "bob" true 2000.
Proof.
  intros st env env' st1 st2. split; [reflexivity|].
  refine (proj1 (colliding_session_id_overwrites env'
            (mkBody (Some "bob") (Some "654321")) st1
            "4fzyo82mvyrk3j2h1g0f9e" "bob" st2
            (mkSession 42 "alice" true 1000) _ _)).
  - reflexivity.
  - reflexivity.
Defined.

(** ** The sweeper next to the verification route *)

Lemma filter_live_later now now' (entries : list (Z * OtpRecord)) :
  now <= now' →
  List.filter (fun e => negb (isExpired now' (snd e)))
    (List.filter (fun e => negb (isExpired now (snd e))) entries)
  = List.filter (fun e => negb (isExpired now' (snd e))) entries.
Proof.
  intros Hle. induction entries as [|[c r] entries IH]; simpl; [reflexivity|].
  destruct (isExpired now r) eqn:He; simpl.
  - assert (He' : isExpired now' r = true).
    { unfold isExpired in *. rewrite Z.gtb_ltb, Z.ltb_lt in *. lia. }
    rewrite He'. simpl. exact IH.
  - destruct (isExpired now' r); simpl; [|f_equal]; exact IH.
Qed.

(** A run of the sweeper followed by a later run leaves what the later run
    alone leaves; in particular a second run at the same time changes
    nothing. *)
Theorem sweep_later_absorbs_earlier now now' st :
  JsMap.wf (otpStorage st) → now <= now' →
  sweep now' (sweep now st) = sweep now' st.
Proof.
  intros Hwf Hle. unfold sweep. simpl. f_equal.
  rewrite (sweepStorage_filter now' (sweepStorage now (otpStorage st)))
    by (apply sweep_fold_wf; exact Hwf).
  rewrite !sweepStorage_filter by exact Hwf.
  apply filter_live_later. exact Hle.
Qed.

Lemma sweep_later_absorbs_earlier_witness :
  let st := mkState [(1, mkOtp "111111" "ann" 0);
                     (2, mkOtp "222222" "bob" 300000);
                     (3, mkOtp "333333" "cy" 600000)] ∅ in
  sweep 901000 (sweep 601000 st) = mkState [(3, mkOtp "333333" "cy" 600000)] ∅.
Proof.
  intros st.
  refine (sweep_later_absorbs_earlier 601000 901000 st _ _).
  - wf_concrete.
  - lia.
Defined.

(** What a successful verification rests on. *)
Lemma verify_ok_inv {eng : Engine} env body st sid name :
  fst (verifyOtp env body st) = Ok200 sid name →
  ∃ u code pre c r post,
    body = mkBody (Some u) (Some code) ∧
    Str.truthy u = true ∧ Str.truthy code = true ∧
    otpStorage st = pre ++ (c, r) :: post ∧
    noMatch u code pre = true ∧ matches u code r = true ∧
    isExpired (now_check env) r = false ∧ c ≠ 0.
Proof.
  destruct body as [[u|] [code|]]; unfold verifyOtp; simpl;
    try discriminate.
  destruct (Str.truthy u) eqn:Hu, (Str.truthy code) eqn:Hc; simpl;
    try discriminate.
  destruct (scan _ _ _ _) as [c|c r|] eqn:Hscan; try discriminate.
  destruct (Z.eqb_spec c 0) as [|Hc0]; [discriminate|]. intros _.
  apply scan_found_inv in Hscan as (pre & post & Hst & Hpre & Hr & He).
  exists u, code, pre, c, r, post. repeat split; auto.
Qed.

Lemma noMatch_filter {eng : Engine} name code (P : Z * OtpRecord → bool) entries :
  noMatch name code entries = true →
  noMatch name code (List.filter P entries) = true.
Proof.
  induction entries as [|e entries IH]; simpl; [auto|].
  intros H. apply andb_true_iff in H as [He H].
  destruct (P e); simpl; [rewrite He|]; auto.
Qed.

(** Right after a run of the sweeper, and at the time of that run, no
    verification is answered with [Expired]: the records that would be are
    gone. *)
Theorem no_expired_answer_after_sweep {eng : Engine} env body st :
  JsMap.wf (otpStorage st) →
  fst (verifyOtp env body (sweep (now_check env) st)) ≠ Expired.
Proof.
  intros Hwf. unfold verifyOtp.
  destruct (b_username body) as [name|]; [|discriminate].
  destruct (b_otp body) as [code|]; [|discriminate].
  destruct (_ || _); [discriminate|].
  destruct (scan _ _ _ _) as [c|c r|] eqn:Hscan; simpl; [|
    destruct (c =? 0); discriminate | discriminate].
  exfalso.
  apply scan_expired_inv in Hscan as (pre & r & post & Hst & _ & _ & He).
  assert (Hin : (c, r) ∈ otpStorage (sweep (now_check env) st)).
  { rewrite Hst. apply elem_of_app. right. left. }
  simpl in Hin. rewrite (sweepStorage_filter _ _ Hwf) in Hin.
  apply list_elem_of_In, filter_In in Hin as [_ Hlive]. simpl in Hlive.
  rewrite He in Hlive. discriminate.
Qed.

Lemma no_expired_answer_after_sweep_witness :
  let st := mkState [(42, mkOtp "123456" "alice" 0)] ∅ in
  let env := mkEnv 601000 601000 "0.4fzyo82mvyr" "0.k3j2h1g0f9e" in
  let body := mkBody (Some "alice") (Some "123456") in
  fst (verifyOtp env body st) = Expired ∧
  fst (verifyOtp env body (sweep 601000 st)) ≠ Expired.
Proof.
  intros st env body. split; [reflexivity|].
  refine (no_expired_answer_after_sweep env body st _). wf_concrete.
Defined.

(** A verification that succeeds would succeed as well right after a run of
    the sweeper at the same time, with the same response; and sweeping
    before the verification or after it ends in the same state. *)
Theorem sweep_keeps_successful_verification {eng : Engine} env body st sid name :
  JsMap.wf (otpStorage st) →
  fst (verifyOtp env body st) = Ok200 sid name →
  verifyOtp env body (sweep (now_check env) st)
  = (Ok200 sid name, sweep (now_check env) (snd (verifyOtp env body st))).
Proof.
  intros Hwf Hok.
  destruct (verify_ok_inv env body st sid name Hok)
    as (u & code & pre & c & r & post & -> & Hu & Hc & Hst & Hpre & Hr
        & He & Hc0).
  set (live := fun e : Z * OtpRecord => negb (isExpired (now_check env) (snd e))).
  pose proof (verify_first_live env u code st Hu Hc pre c r post
                Hwf Hst Hpre Hr He Hc0) as Hv.
  rewrite Hv in Hok |- *. simpl in Hok. injection Hok as <- <-.
  assert (Hswept : otpStorage (sweep (now_check env) st)
                   = List.filter live pre ++ (c, r) :: List.filter live post).
  { simpl. rewrite (sweepStorage_filter _ _ Hwf), Hst, List.filter_app. simpl.
    rewrite He. reflexivity. }
  rewrite (verify_first_live env u code (sweep (now_check env) st) Hu Hc
             _ c r _ (sweep_fold_wf _ _ _ Hwf) Hswept
             (noMatch_filter _ _ _ _ Hpre) Hr He Hc0).
  f_equal. unfold sweep. simpl. f_equal.
  rewrite sweepStorage_filter, List.filter_app; [reflexivity|].
  rewrite Hst in Hwf. eapply wf_app_drop. exact Hwf.
Qed.

Lemma sweep_keeps_successful_verification_witness :
  let st := mkState [(1, mkOtp "111111" "ann" 0);
                     (42, mkOtp "123456" "alice" 600000)] ∅ in
  let env := mkEnv 601000 601000 "0.4fzyo82mvyr" "0.k3j2h1g0f9e" in
  let body := mkBody (Some "alice") (Some "123456") in
  fst (verifyOtp env body (sweep 601000 st))
  = Ok200 "4fzyo82mvyrk3j2h1g0f9e" "alice" ∧
  otpStorage (snd (verifyOtp env body (sweep 601000 st))) = [].
Proof.
  intros st env body.
  assert (Hwf : JsMap.wf (otpStorage st)) by wf_concrete.
  pose proof (sweep_keeps_successful_verification env body st
                "4fzyo82mvyrk3j2h1g0f9e" "alice" Hwf eq_refl) as H.
  split.
  - exact (f_equal fst H).
  - exact (f_equal (fun out => otpStorage (snd out)) H).
Defined.

(** ** The [/start] handler of the webhook variant, whatever the delivery *)

(** Whatever the delivery does, the handler ends normally: the record is
    stored under the chat id, with the display name and the time read
    before the delivery, [bot.sendMessage] has been called exactly once,
    and one delivery outcome has been consumed. A failed delivery neither
    rejects the handler nor takes the record back. *)
Theorem start_handler_always_completes
    msg code startTime timestamp store outs :
  let run := Handler.onStart msg code startTime timestamp
               (Handler.mkRun store [] outs) in
  fst run = inr tt ∧
  length (Handler.sends (Handler.trace (snd run))) = 1%nat ∧
  Handler.outcomes (snd run) = tl outs ∧
  Handler.storage (snd run)
  = JsMap.set (chat_id msg)
      (mkOtp code (Handler.displayName msg) timestamp) store.
Proof. intros run. destruct outs as [|[] rest]; repeat split. Qed.

Lemma show_num_inj a b :
  Handler.show (Handler.VNum a) = Handler.show (Handler.VNum b) → a = b.
Proof.
  simpl. intros H. apply DecimalZ.to_int_inj.
  assert (Hnn : ∀ z, Z.to_int z ≠ Decimal.Pos Decimal.Nil
                     ∧ Z.to_int z ≠ Decimal.Neg Decimal.Nil).
  { intros [|p|p]; simpl; split; try discriminate;
      intros [= Hp]; exact (DecimalPos.Unsigned.to_uint_nonnil p Hp). }
  apply (f_equal NilZero.int_of_string) in H.
  rewrite !NilZero.isi in H by apply Hnn. congruence.
Qed.

Lemma append_inj_l p s t : (p ++ s)%string = (p ++ t)%string → s = t.
Proof. induction p as [|c p IH]; simpl; [auto|]. intros [= H]. auto. Qed.

(** The display name of the webhook variant is never empty, and senders
    that have neither handle nor first name get display names that differ
    from chat to chat ([user_] followed by the chat id), where [server.js]
    stores all of them as [User]. *)
Theorem webhook_display_names msg c1 c2 :
  Str.truthy (Handler.displayName msg) = true ∧
  (Handler.displayName (mkMessage c1 None None)
   = Handler.displayName (mkMessage c2 None None) → c1 = c2) ∧
  displayName (mkMessage c1 None None) = displayName (mkMessage c2 None None).
Proof.
  split; [|split; [|reflexivity]].
  - unfold Handler.displayName. apply or_else_truthy, or_else_truthy.
    reflexivity.
  - unfold Handler.displayName. simpl. intros H.
    apply (append_inj_l "user_") in H. apply show_num_inj. exact H.
Qed.

(** ** The test of the scan loop *)

Lemma lower_char_same_letter a b :
  Str.lower_char a = Str.lower_char b → Str.same_letter a b = true.
Proof.
  unfold Str.same_letter, Str.lower_char.
  destruct (Str.is_upper a) eqn:Ha, (Str.is_upper b) eqn:Hb; simpl; intros H.
  - assert (a = b) as ->; [|rewrite Ascii.eqb_refl; reflexivity].
    unfold Str.is_upper in Ha, Hb.
    apply andb_true_iff in Ha as [_ Ha], Hb as [_ Hb].
    apply Nat.leb_le in Ha, Hb.
    apply (f_equal nat_of_ascii) in H.
    rewrite !nat_ascii_embedding in H by lia.
    rewrite <- (ascii_nat_embedding a), <- (ascii_nat_embedding b).
    f_equal. lia.
  - subst b. rewrite Ascii.eqb_refl, orb_true_r. reflexivity.
  - subst a. rewrite Ascii.eqb_refl. apply orb_true_r.
  - subst b. rewrite Ascii.eqb_refl. reflexivity.
Qed.

Lemma lower_eq_upto_case s t :
  Str.asciiLower s = Str.asciiLower t → Str.eq_upto_case s t = true.
Proof.
  revert t. induction s as [|a s IH]; intros [|b t]; simpl;
    try discriminate; [reflexivity|].
  intros [= Hab Hst]. rewrite (lower_char_same_letter _ _ Hab). simpl. auto.
Qed.

(** On names made of ASCII characters, where [toLowerCase] folds the
    letters [A] to [Z] and nothing else, a stored record passes the test of
    the scan loop exactly when the submitted username equals its display
    name up to the case of those letters, character by character, and the
    submitted code is its code, character for character. *)
Theorem loop_test_is_equality_upto_case {eng : Engine} name code r :
  Str.is_ascii name = true → Str.is_ascii (username r) = true →
  (matches name code r = true
   ↔ Str.eq_upto_case name (username r) = true ∧ otp r = code).
Proof.
  intros Hname Hstored. unfold matches.
  rewrite (toLowerCase_ascii _ Hname), (toLowerCase_ascii _ Hstored).
  rewrite andb_true_iff, String.eqb_eq, String.eqb_eq. split.
  - intros [Hl Hc]. split; [|exact Hc].
    apply lower_eq_upto_case. symmetry. exact Hl.
  - intros [Hl Hc]. split; [|exact Hc].
    symmetry. apply StrFacts.eq_upto_case_lower. exact Hl.
Qed.

Lemma loop_test_is_equality_upto_case_witness :
  matches "ALICE" "123456" (mkOtp "123456" "alice" 0) = true.
Proof.
  apply (proj2 (loop_test_is_equality_upto_case "ALICE" "123456"
                  (mkOtp "123456" "alice" 0) eq_refl eq_refl)).
  split; reflexivity.
Defined.

(** ** From issuing a code to verifying it *)

Lemma set_split {V} c (v : V) (m : list (Z * V)) :
  ∃ pre post,
    JsMap.set c v m = pre ++ (c, v) :: post ∧
    ∀ e, e ∈ pre → e ∈ m ∧ fst e ≠ c.
Proof.
  induction m as [|[k0 v0] m (pre & post & Heq & Hpre)]; simpl.
  - exists [], []. split; [reflexivity|]. intros e H. inversion H.
  - destruct (Z.eqb_spec k0 c) as [->|Hne].
    + exists [], m. split; [reflexivity|]. intros e H. inversion H.
    + exists ((k0, v0) :: pre), post. rewrite Heq. split; [reflexivity|].
      intros e H. apply elem_of_cons in H as [->|H].
      * split; [left | exact Hne].
      * destruct (Hpre e H). split; [right|]; assumption.
Qed.

(** A record just stored for [c] is the first match for its own name and
    code when no record of another chat matches them. *)
Lemma verify_after_set {eng : Engine} env c name code issued entries sessions :
  JsMap.wf entries → c ≠ 0 →
  Str.truthy name = true → Str.truthy code = true →
  onlyMatch name code c entries = true →
  now_check env - issued <= EXPIRY_MS →
  let sid := generateSessionId (rendering1 env) (rendering2 env) in
  let stored := JsMap.set c (mkOtp code name issued) entries in
  verifyOtp env (mkBody (Some name) (Some code)) (mkState stored sessions)
  = (Ok200 sid name,
     mkState (JsMap.delete c stored)
             (<[sid := mkSession c name true (now_session env)]> sessions)).
Proof.
  intros Hwf Hc0 Hn Hcode Honly Hage sid stored.
  destruct (set_split c (mkOtp code name issued) entries)
    as (pre & post & Heq & Hpre).
  assert (Hwf' : JsMap.wf stored) by (apply JsMapFacts.wf_set; exact Hwf).
  fold stored in Heq.
  assert (Hno : noMatch name code pre = true).
  { unfold noMatch. apply forallb_forall. intros [k r] Hin.
    apply list_elem_of_In, Hpre in Hin as [Hin Hk]. simpl in *.
    destruct (matches name code r) eqn:Hm; [|reflexivity].
    exfalso. apply Hk. eapply onlyMatch_elem; eauto. }
  assert (Hm : matches name code (mkOtp code name issued) = true).
  { unfold matches. simpl. rewrite !String.eqb_refl. reflexivity. }
  assert (He : isExpired (now_check env) (mkOtp code name issued) = false).
  { apply isExpired_false. exact Hage. }
  rewrite (verify_first_live env name code (mkState stored sessions) Hn Hcode
             pre c _ post Hwf' Heq Hno Hm He Hc0).
  simpl. rewrite Heq in Hwf' |- *.
  rewrite (JsMapFacts.delete_middle _ _ _ _ Hwf'). reflexivity.
Qed.

(** The way through [server.js]: after [/start] from a chat with a
    non-zero id, the code that was stored, submitted with the display name
    within 10 minutes, verifies, provided it is not empty and no record of
    another chat matches the same name and code. The session found under
    the returned id carries the display name, and the lookup of the chat
    then answers 404: the record is used up. *)
Theorem issued_code_verifies {eng : Engine} env msg code now st :
  JsMap.wf (otpStorage st) →
  chat_id msg ≠ 0 → Str.truthy code = true →
  onlyMatch (displayName msg) code (chat_id msg) (otpStorage st) = true →
  now_check env - now <= EXPIRY_MS →
  let out := verifyOtp env (mkBody (Some (displayName msg)) (Some code))
               (onStart msg code now st) in
  let sid := generateSessionId (rendering1 env) (rendering2 env) in
  fst out = Ok200 sid (displayName msg) ∧
  getSession sid (snd out)
  = SessionOk (displayName msg) true (now_session env) ∧
  getUser (Some (chat_id msg)) (snd out) = UserNotFound.
Proof.
  intros Hwf Hc0 Hcode Honly Hage out sid. unfold out, onStart, issueOtp.
  rewrite (verify_after_set env (chat_id msg) (displayName msg) code now
             (otpStorage st) (userSessions st) Hwf Hc0
             (displayName_truthy msg) Hcode Honly Hage).
  simpl. split; [reflexivity|]. split.
  - unfold getSession. simpl. fold sid. rewrite lookup_insert_eq. reflexivity.
  - unfold getUser. simpl. rewrite JsMapFacts.get_delete_eq. reflexivity.
Qed.

Lemma issued_code_verifies_witness :
  let st := onStart (mkMessage 7 (Some "bob") None) "654321" 0
              (mkState [] ∅) in
  let msg := mkMessage 42 None (Some "Alice") in
  let env := mkEnv 600000 600001 "0.4fzyo82mvyr" "0.k3j2h1g0f9e" in
  let out := verifyOtp env (mkBody (Some "Alice") (Some "123456"))
               (onStart msg "123456" 0 st) in
  fst out = Ok200 "4fzyo82mvyrk3j2h1g0f9e" "Alice" ∧
  getSession "4fzyo82mvyrk3j2h1g0f9e" (snd out) = SessionOk "Alice" true 600001 ∧
  getUser (Some 42) (snd out) = UserNotFound.
Proof.
  intros st msg env out.
  refine (issued_code_verifies env msg "123456" 0 st _ _ _ _ _).
  - wf_concrete.
  - discriminate.
  - reflexivity.
  - reflexivity.
  - unfold EXPIRY_MS. simpl. lia.
Defined.

(** ** The direct-API variant *)

Lemma api_key_eqb_refl k : DirectApi.key_eqb k k = true.
Proof. destruct k; simpl; [apply Z.eqb_refl | reflexivity]. Qed.

(** Where [set] puts the record: behind entries of other keys, all of
    which were there before. *)
Lemma api_set_split k v m :
  ∃ pre post,
    DirectApi.set k v m = pre ++ (k, v) :: post ∧
    ∀ e, In e pre → In e m ∧ DirectApi.key_eqb (fst e) k = false.
Proof.
  induction m as [|[k0 v0] m (pre & post & Heq & Hpre)]; simpl.
  - exists [], []. split; [reflexivity|]. intros e [].
  - destruct (DirectApi.key_eqb k0 k) eqn:Hk.
    + exists [], m. split; [reflexivity|]. intros e [].
    + exists ((k0, v0) :: pre), post. rewrite Heq. split; [reflexivity|].
      intros e [<-|H]; [split; [left; reflexivity | exact Hk]|].
      destruct (Hpre e H). split; [right|]; assumption.
Qed.

Lemma api_quiet_before {eng : Engine} name code k m pre :
  DirectApi.quiet name code k m = true →
  (∀ e, In e pre → In e m ∧ DirectApi.key_eqb (fst e) k = false) →
  forallb (fun e => DirectApi.passedOver name code (snd e)) pre = true.
Proof.
  unfold DirectApi.quiet. rewrite !forallb_forall. intros Hq Hpre e He.
  destruct (Hpre e He) as [Hin Hk]. specialize (Hq e Hin).
  rewrite Hk in Hq. exact Hq.
Qed.

(** The scan goes past the records it passes over. *)
Lemma api_scan_skip {eng : Engine} now name code pre rest :
  forallb (fun e => DirectApi.passedOver name code (snd e)) pre = true →
  DirectApi.scan now (FStr name) (FStr code) (pre ++ rest)
  = DirectApi.scan now (FStr name) (FStr code) rest.
Proof.
  induction pre as [|[k r] pre IH]; simpl; [reflexivity|].
  intros H. apply andb_true_iff in H as [Hr H].
  unfold DirectApi.passedOver in Hr.
  destruct (DirectApi.r_username r) as [stored|]; [|discriminate].
  simpl. apply negb_true_iff in Hr. rewrite Hr. exact (IH H).
Qed.

(** [POST /generate-otp] stores the record before it calls Telegram and
    answers with the code itself when the call succeeds, with a 500 when it
    fails; the record stays in both cases. The stored code, submitted with
    the username of the request within 10 minutes, verifies, for a chat id
    that is an integer other than 0 and a username and a code that are not
    empty, when every record stored under another key has a string for
    username and does not match them. So whoever gets the 200 response
    holds a code that verifies, without reading the Telegram chat. *)
Theorem direct_api_hands_out_working_code {eng : Engine}
    env c name code issued delivered st :
  c ≠ 0 →
  Str.truthy name = true → Str.truthy code = true →
  DirectApi.quiet name code (DirectApi.KNum c) (DirectApi.storage st) = true →
  now_check env - issued <= EXPIRY_MS →
  let run := DirectApi.generateOtp (DirectApi.KNum c) (FStr name) code issued
               delivered st in
  let sid := generateSessionId (rendering1 env) (rendering2 env) in
  fst run = (if delivered then DirectApi.GenOk code else DirectApi.GenFailed) ∧
  DirectApi.verifyOtp env (FStr name) (FStr code) (snd run)
  = (Responded (Ok200 sid name),
     DirectApi.mkApiState
       (DirectApi.delete (DirectApi.KNum c) (DirectApi.storage (snd run)))
       (<[sid := mkSession c name true (now_session env)]>
          (DirectApi.sessions st))).
Proof.
  intros Hc0 Hn Hcode Hq Hage run sid.
  split; [unfold run, DirectApi.generateOtp; destruct delivered; reflexivity|].
  assert (Hrun : snd run
            = DirectApi.mkApiState
                (DirectApi.set (DirectApi.KNum c)
                   (DirectApi.mkStored code (FStr name) issued)
                   (DirectApi.storage st))
                (DirectApi.sessions st)).
  { unfold run, DirectApi.generateOtp. destruct delivered; reflexivity. }
  rewrite Hrun. unfold DirectApi.verifyOtp. simpl. rewrite Hn, Hcode. simpl.
  destruct (api_set_split (DirectApi.KNum c)
              (DirectApi.mkStored code (FStr name) issued)
              (DirectApi.storage st)) as (pre & post & Heq & Hpre).
  rewrite Heq at 1.
  rewrite (api_scan_skip _ _ _ _ _ (api_quiet_before _ _ _ _ _ Hq Hpre)).
  simpl. rewrite !String.eqb_refl. simpl.
  assert (Hlive : (now_check env - issued >? EXPIRY_MS) = false).
  { rewrite Z.gtb_ltb. apply Z.ltb_ge. exact Hage. }
  rewrite Hlive. destruct (Z.eqb_spec c 0); [contradiction|]. reflexivity.
Qed.

(** The route is called for chat 42 and [alice] while chat 7 holds a record
    of [bob]; Telegram accepts the message. *)
Lemma direct_api_hands_out_working_code_witness :
  let st := DirectApi.mkApiState
              [(DirectApi.KNum 7, DirectApi.mkStored "654321" (FStr "bob") 0)]
              ∅ in
  let env := mkEnv 1000 1000 "0.4fzyo82mvyr" "0.k3j2h1g0f9e" in
  let run := DirectApi.generateOtp (DirectApi.KNum 42) (FStr "alice")
               "123456" 0 true st in
  fst run = DirectApi.GenOk "123456" ∧
  fst (DirectApi.verifyOtp env (FStr "alice") (FStr "123456") (snd run))
  = Responded (Ok200 "4fzyo82mvyrk3j2h1g0f9e" "alice").
Proof.
  intros st env run.
  destruct (direct_api_hands_out_working_code env 42 "alice" "123456" 0
              true st) as [H1 H2].
  - discriminate.
  - reflexivity.
  - reflexivity.
  - reflexivity.
  - unfold EXPIRY_MS. simpl. lia.
  - split; [exact H1 | exact (f_equal fst H2)].
Defined.

(** The route stores the [username] of the body as it comes. After a
    request whose [username] is missing or is not a string, a verification
    whose scan gets as far as the new record (every record stored under
    another key has a string for username and does not match the submitted
    pair) does not answer: the test calls [toLowerCase] on the stored
    value and throws. Nothing changes, so the next such verification
    throws as well; on a map that was empty every verification does. *)
Theorem direct_api_record_without_username_breaks_verification
    {eng : Engine} env key t code issued delivered st name' code' :
  Str.truthy name' = true → Str.truthy code' = true →
  DirectApi.quiet name' code' key (DirectApi.storage st) = true →
  let st1 := snd (DirectApi.generateOtp key (FOther t) code issued
                    delivered st) in
  DirectApi.verifyOtp env (FStr name') (FStr code') st1 = (Thrown, st1).
Proof.
  intros Hn Hcode Hq st1.
  assert (Hst1 : DirectApi.storage st1
            = DirectApi.set key (DirectApi.mkStored code (FOther t) issued)
                (DirectApi.storage st)).
  { unfold st1, DirectApi.generateOtp. destruct delivered; reflexivity. }
  unfold DirectApi.verifyOtp. simpl. rewrite Hn, Hcode. simpl.
  destruct (api_set_split key (DirectApi.mkStored code (FOther t) issued)
              (DirectApi.storage st)) as (pre & post & Heq & Hpre).
  rewrite Hst1, Heq.
  rewrite (api_scan_skip _ _ _ _ _ (api_quiet_before _ _ _ _ _ Hq Hpre)).
  reflexivity.
Qed.

(** [POST /generate-otp] with the body [{ "chatId": 5 }] on an empty map,
    then a verification by anyone. *)
Lemma direct_api_record_without_username_breaks_verification_witness :
  let env := mkEnv 1000 1000 "0.4fzyo82mvyr" "0.k3j2h1g0f9e" in
  let st1 := snd (DirectApi.generateOtp (DirectApi.KNum 5) (FOther false)
                    "123456" 0 false (DirectApi.mkApiState [] ∅)) in
  DirectApi.verifyOtp env (FStr "alice") (FStr "654321") st1 = (Thrown, st1).
Proof.
  intros env.
  refine (direct_api_record_without_username_breaks_verification env
            (DirectApi.KNum 5) false "123456" 0 false
            (DirectApi.mkApiState [] ∅) "alice" "654321" _ _ _);
    reflexivity.
Defined.

(** The same scan over the map of this variant, which takes the chat id 0
    from a request body: chat 1 holds an expired record, and
    [POST /generate-otp] with [chatId] 0 has stored a record with the same
    name and code (Telegram refusing the message does not take it back).
    The first verification answers [Expired] and deletes the record of
    chat 1; the record under 0 stays, and the next verification finds it
    and answers [InvalidCredentials]. *)
Example direct_api_chat_zero_is_not_verifiable :
  let later := DirectApi.mkStored "123456" (FStr "alice") 2000 in
  let st :=
    snd (DirectApi.generateOtp (DirectApi.KNum 0) (FStr "alice") "123456"
           2000 false
           (snd (DirectApi.generateOtp (DirectApi.KNum 1) (FStr "alice")
                   "123456" 0 true (DirectApi.mkApiState [] ∅)))) in
  let env := mkEnv 601000 601000 "0.4fzyo82mvyr" "0.k3j2h1g0f9e" in
  let st' := snd (DirectApi.verifyOtp env (FStr "alice") (FStr "123456") st) in
  DirectApi.verifyOtp env (FStr "alice") (FStr "123456") st
  = (Responded Expired, st') ∧
  DirectApi.storage st' = [(DirectApi.KNum 0, later)] ∧
  DirectApi.verifyOtp env (FStr "alice") (FStr "123456") st'
  = (Responded InvalidCredentials, st').
Proof. repeat split. Qed.
